(** * A shallow embedding of [experiments/chart.py]

    The script loads a CSV file with [pd.read_csv], prints it, configures
    the figure, filters the rows with [dataframe["probability"] >= 00],
    draws [sns.barplot(x="probability", y="difference", ...)], sets the
    labels and calls [plt.show()].

    The library calls are modelled as far as the script exercises them:
    - [pd.read_csv] with the default C engine: the states of its
      tokenizer (fields separated by [,]; quoted fields between double
      quotes, in which a doubled double quote stands for one; records
      ended by [\n], [\r\n] or [\r]; lines that are empty or made of
      spaces and tabs skipped; an unterminated quoted field raising
      [ParserError]); the first data record may be longer than the
      header (implicit index columns); later longer records raise
      [ParserError], shorter ones are padded with NaN; the header names
      of the C reader (["Unnamed: i"] for empty names, duplicates renamed
      ["x.1"], ...) followed by [dedup_names]; every column's type is
      inferred (numbers, booleans, otherwise strings; the default NA
      strings become NaN).  A number is represented by the exact value
      of its decimal literal; a cell holds no infinity, so the literals
      [inf]/[infinity] are outside this model.
    - ISO-8859-1 decoding maps each byte to the character with the same
      code, so a file is its list of 8-bit characters.
    - [sns.barplot]: column lookup, orientation inference, grouping by
      the categorical axis and the default [mean] estimator. *)

From Stdlib Require Import String Ascii List QArith ZArith Bool Arith Lia.
From Stdlib Require Import Numbers.DecimalString QArith.Qround Sorting.Sorted.
Import ListNotations.
Local Open Scope string_scope.
Local Open Scope list_scope.
Local Open Scope nat_scope.

(** ** Python values *)

(** A DataFrame cell: a number (ints and floats alike), a boolean, a
    string of an object column, or NaN. *)
Inductive cell :=
| CNum (q : Q)
| CBool (b : bool)
| CStr (s : string)
| CNaN.

(** Python exceptions that the script can raise.  [ParserError] is
    pandas' "Expected e fields in line l, saw s" and [ParserErrorEOF] its
    "EOF inside string starting at row r", both [pandas.errors.ParserError]. *)
Inductive exn :=
| FileNotFoundError (path : string)
| EmptyDataError
| ParserError (expected line saw : nat)
| ParserErrorEOF (row : nat)
| KeyError (key : string)
| ValueError (msg : string)
| TypeError (msg : string).

Inductive result (A : Type) :=
| Ok (a : A)
| Err (e : exn).
Arguments Ok {A} a.
Arguments Err {A} e.

(** A [pandas.DataFrame]: the index labels (one list per row, a single
    label for the default [RangeIndex]), the column names and the rows. *)
Record DataFrame := mkDF {
  df_index : list (list cell);
  df_columns : list string;
  df_rows : list (list cell)
}.

(** ** Text helpers *)

Definition string_of_nat (n : nat) : string :=
  NilZero.string_of_uint (Nat.to_uint n).

Definition is_digit (c : ascii) : bool :=
  let n := nat_of_ascii c in (Nat.leb 48 n) && (Nat.leb n 57).

Definition digit_val (c : ascii) : Z := Z.of_nat (nat_of_ascii c - 48)%nat.

Fixpoint take_digits (cs : list ascii) : list ascii * list ascii :=
  match cs with
  | c :: cs' =>
      if is_digit c then let '(ds, rest) := take_digits cs' in (c :: ds, rest)
      else ([], cs)
  | [] => ([], [])
  end.

Definition digits_val (ds : list ascii) : Z :=
  fold_left (fun acc c => acc * 10 + digit_val c)%Z ds 0%Z.

(** [isspace_ascii] of pandas' number parsers: space, [\t], [\n],
    [\v], [\f], [\r]. *)
Definition isspace_ascii (c : ascii) : bool :=
  existsb (Ascii.eqb c) [" "; "009"; "010"; "011"; "012"; "013"]%char.

Fixpoint skip_space (cs : list ascii) : list ascii :=
  match cs with
  | c :: cs' => if isspace_ascii c then skip_space cs' else cs
  | [] => []
  end.

(** The characters without their leading and trailing [isspace_ascii]
    ones. *)
Definition strip_space (cs : list ascii) : list ascii :=
  rev (skip_space (rev (skip_space cs))).

(** ASCII lower case, as [strcasecmp] compares. *)
Definition lower_ascii (c : ascii) : ascii :=
  let n := nat_of_ascii c in
  if (Nat.leb 65 n) && (Nat.leb n 90) then ascii_of_nat (n + 32) else c.

Definition lower_string (s : string) : string :=
  string_of_list_ascii (map lower_ascii (list_ascii_of_string s)).

(** ** Field conversion of [pd.read_csv] *)

(** The default NA strings of pandas ([STR_NA_VALUES]). *)
Definition na_values : list string :=
  [""; "#N/A"; "#N/A N/A"; "#NA"; "-1.#IND"; "-1.#QNAN"; "-NaN"; "-nan";
   "1.#IND"; "1.#QNAN"; "<NA>"; "N/A"; "NA"; "NULL"; "NaN"; "None";
   "n/a"; "nan"; "null"].

Definition is_na (f : string) : bool := existsb (String.eqb f) na_values.

(** [_try_bool_flex]: the default true and false values, then
    [to_boolean], which compares with [TRUE] and [FALSE] ignoring case;
    together, [true] and [false] in any case. *)
Definition parse_bool (f : string) : option bool :=
  if String.eqb (lower_string f) "true" then Some true
  else if String.eqb (lower_string f) "false" then Some false
  else None.

(** [10 ^ e] as a rational, for any integer [e]. *)
Definition pow10 (e : Z) : Q :=
  if (0 <=? e)%Z then inject_Z (10 ^ e) else Qmake 1 (Z.to_pos (10 ^ (- e))).

Definition parse_sign (cs : list ascii) : Z * list ascii :=
  match cs with
  | c :: cs' =>
      if Ascii.eqb c "-"%char then ((-1)%Z, cs')
      else if Ascii.eqb c "+"%char then (1%Z, cs')
      else (1%Z, cs)
  | [] => (1%Z, cs)
  end.

(** The fields pandas' [str_to_int64] or [precise_xstrtod] accept:
    decimal literals [[+-]digits[.digits][(e|E)[+-]digits]], with at
    least one digit in the mantissa, between leading and trailing
    [isspace_ascii] characters. *)
Definition parse_num (f : string) : option Q :=
  let '(sg, cs) := parse_sign (strip_space (list_ascii_of_string f)) in
  let '(d1, cs) := take_digits cs in
  let '(d2, cs) :=
    match cs with
    | c :: cs' => if Ascii.eqb c "."%char then take_digits cs' else ([], cs)
    | [] => ([], cs)
    end in
  let ex :=
    match cs with
    | [] => Some 0%Z
    | c :: cs' =>
        if Ascii.eqb c "e"%char || Ascii.eqb c "E"%char then
          let '(esg, cs'') := parse_sign cs' in
          let '(de, rest) := take_digits cs'' in
          match de, rest with
          | _ :: _, [] => Some (esg * digits_val de)%Z
          | _, _ => None
          end
        else None
    end in
  match d1 ++ d2, ex with
  | [], _ => None
  | ds, Some e =>
      Some (Qred (inject_Z (sg * digits_val ds) * pow10 (e - Z.of_nat (length d2))))
  | _, None => None
  end.

Definition is_some {A} (o : option A) : bool :=
  match o with Some _ => true | None => false end.

(** The dtype pandas infers for a column from its fields. *)
Inductive dtype := DNum | DBool | DObj.

Definition infer_dtype (fs : list string) : dtype :=
  if forallb (fun f => is_na f || is_some (parse_num f)) fs then DNum
  else if forallb (fun f => is_na f || is_some (parse_bool f)) fs then DBool
  else DObj.

Definition convert (t : dtype) (f : string) : cell :=
  if is_na f then CNaN else
  match t with
  | DNum => match parse_num f with Some q => CNum q | None => CStr f end
  | DBool => match parse_bool f with Some b => CBool b | None => CStr f end
  | DObj => CStr f
  end.

Definition column_fields (j : nat) (raw : list (list string)) : list string :=
  map (fun r => nth j r "") raw.

(** Converts a block of [n] columns: infers each column's dtype, then
    converts every row with the dtypes of its columns. *)
Definition convert_block (n : nat) (raw : list (list string)) : list (list cell) :=
  let tys := map (fun j => infer_dtype (column_fields j raw)) (seq 0 n) in
  map (fun r => map (fun '(t, f) => convert t f) (combine tys r)) raw.

(** ** Header names *)

Definition unnamed (header : list string) : list string :=
  map (fun '(i, h) => if String.eqb h "" then String.append "Unnamed: " (string_of_nat i) else h)
    (combine (seq 0 (length header)) header).

Fixpoint count_get (k : string) (m : list (string * nat)) : nat :=
  match m with
  | [] => 0
  | (k', v) :: m' => if String.eqb k k' then v else count_get k m'
  end.

Definition count_set (k : string) (v : nat) (m : list (string * nat)) : list (string * nat) :=
  (k, v) :: m.

(** The [while cur_count > 0] loop of pandas' [dedup_names]. *)
Fixpoint mangle (fuel : nat) (counts : list (string * nat)) (col : string) (cur : nat)
  : list (string * nat) * string * nat :=
  match fuel with
  | O => (counts, col, cur)
  | S fuel' =>
      if cur =? 0 then (counts, col, cur)
      else
        let counts := count_set col (cur + 1) counts in
        let col := String.append col (String.append "." (string_of_nat cur)) in
        mangle fuel' counts col (count_get col counts)
  end.

Fixpoint dedup_aux (fuel : nat) (counts : list (string * nat)) (names : list string) : list string :=
  match names with
  | [] => []
  | col :: rest =>
      let '(counts, col, cur) := mangle fuel counts col (count_get col counts) in
      col :: dedup_aux fuel (count_set col (cur + 1) counts) rest
  end.

(** [pandas.io.common.dedup_names], which the C reader's wrapper applies
    to the names of the header pass. *)
Definition dedup_names (names : list string) : list string :=
  dedup_aux (S (length names)) [] names.

(** [this_header[i] = col] ([i] is always in range). *)
Fixpoint set_nth {A} (i : nat) (x : A) (l : list A) : list A :=
  match l, i with
  | [], _ => []
  | _ :: l', O => x :: l'
  | y :: l', S i' => y :: set_nth i' x l'
  end.

(** The [while cur_count > 0] loop of the header pass of
    [TextReader._get_header]: the candidate [old_col.cur_count] is
    skipped while it is a name of [this_header]. *)
Fixpoint header_mangle_loop (fuel : nat) (this_header : list string)
    (counts : list (string * nat)) (old_col col : string) (cur : nat)
  : list (string * nat) * string * nat :=
  match fuel with
  | O => (counts, col, cur)
  | S fuel' =>
      if cur =? 0 then (counts, col, cur)
      else
        let counts := count_set old_col (cur + 1) counts in
        let col := String.append old_col (String.append "." (string_of_nat cur)) in
        let cur := if existsb (String.eqb col) this_header then cur + 1
                   else count_get col counts in
        header_mangle_loop fuel' this_header counts old_col col cur
  end.

(** The [for i in col_loop_order] loop: each column in turn gets its
    name, [this_header] being updated as it goes. *)
Fixpoint header_mangle (fuel : nat) (order : list nat) (this_header : list string)
    (counts : list (string * nat)) : list string :=
  match order with
  | [] => this_header
  | i :: order' =>
      let old_col := nth i this_header "" in
      let '(counts, col, cur) :=
        header_mangle_loop fuel this_header counts old_col old_col (count_get old_col counts) in
      header_mangle fuel order' (set_nth i col this_header) (count_set col (cur + 1) counts)
  end.

(** The names [TextReader._get_header] gives the header's fields: an
    empty name becomes ["Unnamed: i"]; then the named columns, followed
    by the unnamed ones ([col_loop_order]), have their duplicates renamed.
    Every positive count is that of a name of [this_header], so a loop
    stops at its first candidate that is not a name of [this_header]: it
    makes at most [length header + 1] rounds. *)
Definition header_names (header : list string) : list string :=
  let named := filter (fun i => negb (String.eqb (nth i header "") "")) (seq 0 (length header)) in
  let unnamed_col_indices := filter (fun i => String.eqb (nth i header "") "") (seq 0 (length header)) in
  header_mangle (S (S (length header))) (named ++ unnamed_col_indices) (unnamed header) [].

(** ** [pd.read_csv] on the decoded text *)

(** The states of pandas' tokenizer ([tokenizer.c]) that the default
    options reach. *)
Inductive tstate :=
| START_RECORD
| START_FIELD
| IN_FIELD
| IN_QUOTED_FIELD
| QUOTE_IN_QUOTED_FIELD
| WHITESPACE_LINE
| EAT_CRNL
| EAT_CRNL_NOP.

(** The tokenizer between two characters: its state, [file_lines] (the
    lines ended so far, skipped ones included), the field being read
    (reversed), the fields of the record being read (reversed) and the
    records read (reversed), each with the value of [file_lines] once it
    ended. *)
Record parser := mkParser {
  p_state : tstate;
  p_file_lines : nat;
  p_field : list ascii;
  p_fields : list string;
  p_records : list (nat * list string)
}.

Definition IS_TERMINATOR (c : ascii) : bool := Ascii.eqb c "010"%char.
Definition IS_CARRIAGE (c : ascii) : bool := Ascii.eqb c "013"%char.
Definition IS_QUOTE (c : ascii) : bool := Ascii.eqb c "034"%char.
Definition IS_DELIMITER (c : ascii) : bool := Ascii.eqb c ","%char.
Definition IS_WHITESPACE (c : ascii) : bool := Ascii.eqb c " "%char || Ascii.eqb c "009"%char.

Definition set_state (st : tstate) (p : parser) : parser :=
  mkParser st (p_file_lines p) (p_field p) (p_fields p) (p_records p).

Definition push_char (c : ascii) (p : parser) : parser :=
  mkParser (p_state p) (p_file_lines p) (c :: p_field p) (p_fields p) (p_records p).

Definition end_field (p : parser) : parser :=
  mkParser (p_state p) (p_file_lines p) []
    (string_of_list_ascii (rev (p_field p)) :: p_fields p) (p_records p).

Definition end_line (p : parser) : parser :=
  mkParser (p_state p) (S (p_file_lines p)) [] []
    ((S (p_file_lines p), rev (p_fields p)) :: p_records p).

(** A skipped line is only counted. *)
Definition skip_line (p : parser) : parser :=
  mkParser (p_state p) (S (p_file_lines p)) [] (p_fields p) (p_records p).

Definition start_field (c : ascii) (p : parser) : parser :=
  if IS_TERMINATOR c then set_state START_RECORD (end_line (end_field p))
  else if IS_CARRIAGE c then set_state EAT_CRNL (end_field p)
  else if IS_QUOTE c then set_state IN_QUOTED_FIELD p
  else if IS_DELIMITER c then set_state START_FIELD (end_field p)
  else set_state IN_FIELD (push_char c p).

Definition in_field (c : ascii) (p : parser) : parser :=
  if IS_TERMINATOR c then set_state START_RECORD (end_line (end_field p))
  else if IS_CARRIAGE c then set_state EAT_CRNL (end_field p)
  else if IS_DELIMITER c then set_state START_FIELD (end_field p)
  else set_state IN_FIELD (push_char c p).

(** An empty line is skipped; a line starting with a space or a tab may
    be a blank line; any other character starts a field. *)
Definition start_record (c : ascii) (p : parser) : parser :=
  if IS_TERMINATOR c then set_state START_RECORD (skip_line p)
  else if IS_CARRIAGE c then set_state EAT_CRNL_NOP (skip_line p)
  else if IS_WHITESPACE c then set_state WHITESPACE_LINE (push_char c p)
  else start_field c p.

(** One character of [tokenize_bytes].  In [WHITESPACE_LINE] the blanks
    read so far are kept in the field: when another character comes,
    pandas reads the line again from its start, and these blanks then
    begin the first field ([IN_FIELD]). *)
Definition tokenize_char (c : ascii) (p : parser) : parser :=
  match p_state p with
  | START_RECORD => start_record c p
  | START_FIELD => start_field c p
  | IN_FIELD => in_field c p
  | IN_QUOTED_FIELD =>
      if IS_QUOTE c then set_state QUOTE_IN_QUOTED_FIELD p else push_char c p
  | QUOTE_IN_QUOTED_FIELD =>
      if IS_QUOTE c then set_state IN_QUOTED_FIELD (push_char c p)
      else if IS_DELIMITER c then set_state START_FIELD (end_field p)
      else if IS_TERMINATOR c then set_state START_RECORD (end_line (end_field p))
      else if IS_CARRIAGE c then set_state EAT_CRNL (end_field p)
      else set_state IN_FIELD (push_char c p)
  | WHITESPACE_LINE =>
      if IS_TERMINATOR c then set_state START_RECORD (skip_line p)
      else if IS_CARRIAGE c then set_state EAT_CRNL_NOP (skip_line p)
      else if IS_WHITESPACE c then push_char c p
      else in_field c (set_state IN_FIELD p)
  | EAT_CRNL =>
      if IS_TERMINATOR c then set_state START_RECORD (end_line p)
      else start_record c (end_line p)
  | EAT_CRNL_NOP =>
      if IS_TERMINATOR c || IS_DELIMITER c then set_state START_RECORD p
      else start_record c p
  end.

(** [parser_handle_eof]: the records, and the row reported when the text
    ends inside a quoted field. *)
Definition handle_eof (p : parser) : list (nat * list string) * option nat :=
  match p_state p with
  | START_RECORD | WHITESPACE_LINE | EAT_CRNL_NOP => (rev (p_records p), None)
  | IN_QUOTED_FIELD => (rev (p_records p), Some (p_file_lines p))
  | START_FIELD | IN_FIELD | QUOTE_IN_QUOTED_FIELD =>
      (rev (p_records (end_line (end_field p))), None)
  | EAT_CRNL => (rev (p_records (end_line p)), None)
  end.

Definition init_parser : parser := mkParser START_RECORD 0 [] [] [].

(** The records of the text (each with the line number pandas reports
    for it) and, if the text ends inside a quoted field, the row of the
    EOF error. *)
Definition tokenize (text : string) : list (nat * list string) * option nat :=
  handle_eof (fold_left (fun p c => tokenize_char c p) (list_ascii_of_string text) init_parser).

(** A short line is completed with empty fields, which read as NaN. *)
Definition pad (n : nat) (fs : list string) : list string :=
  fs ++ repeat "" (n - length fs).

(** The first record with more than [e] fields, if any. *)
Fixpoint first_long (e : nat) (recs : list (nat * list string)) : option (nat * nat) :=
  match recs with
  | [] => None
  | (ln, fs) :: recs' => if e <? length fs then Some (ln, length fs) else first_long e recs'
  end.

Definition range_index (n : nat) : list (list cell) :=
  map (fun i => [CNum (inject_Z (Z.of_nat i))]) (seq 0 n).

(** [pd.read_csv(text)] with the default options.  The field count [e]
    of the data is the larger of the header's and the first data
    record's; the extra leading fields, if any, form the index.  A
    record longer than [e] is reported before a quoted field left open at
    the end of the text. *)
Definition read_csv_text (text : string) : result DataFrame :=
  match tokenize text with
  | ([], Some row) => Err (ParserErrorEOF row)
  | ([], None) => Err EmptyDataError
  | ((_, header) :: data, eof) =>
      let h := length header in
      let e := match data with [] => h | (_, fs) :: _ => Nat.max h (length fs) end in
      match first_long e (tl data) with
      | Some (ln, saw) => Err (ParserError e ln saw)
      | None =>
          match eof with
          | Some row => Err (ParserErrorEOF row)
          | None =>
              let raw := map (fun '(_, fs) => pad e fs) data in
              let lead := e - h in
              let idx := if lead =? 0 then range_index (length raw)
                         else convert_block lead (map (firstn lead) raw) in
              Ok (mkDF idx (dedup_names (header_names header))
                       (convert_block h (map (skipn lead) raw)))
          end
      end
  end.

(** ** Series operations *)

Fixpoint index_of (k : string) (cols : list string) : option nat :=
  match cols with
  | [] => None
  | c :: cols' =>
      if String.eqb k c then Some 0
      else match index_of k cols' with Some i => Some (S i) | None => None end
  end.

(** [df[k]] for a column name [k]: the column's values, or [KeyError]. *)
Definition get_column (df : DataFrame) (k : string) : result (list cell) :=
  match index_of k (df_columns df) with
  | Some j => Ok (map (fun r => nth j r CNaN) (df_rows df))
  | None => Err (KeyError k)
  end.

Definition cell_to_Q (c : cell) : option Q :=
  match c with
  | CNum q => Some q
  | CBool b => Some (if b then 1 else 0)%Q
  | _ => None
  end.

(** [x >= q] on one element: NaN compares false, a string raises. *)
Definition ge_cell (q : Q) (c : cell) : result bool :=
  match c with
  | CNaN => Ok false
  | CStr _ => Err (TypeError "'>=' not supported between instances of 'str' and 'int'")
  | _ => match cell_to_Q c with Some x => Ok (Qle_bool q x) | None => Ok false end
  end.

Fixpoint map_result {A B} (f : A -> result B) (xs : list A) : result (list B) :=
  match xs with
  | [] => Ok []
  | x :: xs' =>
      match f x with
      | Err e => Err e
      | Ok y => match map_result f xs' with Ok ys => Ok (y :: ys) | Err e => Err e end
      end
  end.

(** [series >= q]. *)
Definition series_ge (s : list cell) (q : Q) : result (list bool) :=
  map_result (ge_cell q) s.

Fixpoint select {A} (mask : list bool) (xs : list A) : list A :=
  match mask, xs with
  | b :: mask', x :: xs' => if b then x :: select mask' xs' else select mask' xs'
  | _, _ => []
  end.

(** [df[mask]]: a new DataFrame with the rows (and index labels) where
    the mask is true. *)
Definition mask_rows (df : DataFrame) (mask : list bool) : DataFrame :=
  mkDF (select mask (df_index df)) (df_columns df) (select mask (df_rows df)).

(** ** [sns.barplot] *)

Inductive vartype := VNumeric | VCategorical.

(** seaborn's [variable_type]: numeric when every non-NA entry is a
    number (booleans included). *)
Definition variable_type (vs : list cell) : vartype :=
  if forallb (fun c => match c with CStr _ => false | _ => true end) vs
  then VNumeric else VCategorical.

Inductive axis := AxisX | AxisY.

(** seaborn's [infer_orient] with [orient=None, require_numeric=False]. *)
Definition infer_orient (xt yt : vartype) : axis :=
  match xt, yt with
  | VNumeric, VCategorical => AxisY
  | _, _ => AxisX
  end.

Definition cell_eqb (a b : cell) : bool :=
  match a, b with
  | CNum p, CNum q => Qeq_bool p q
  | CBool p, CBool q => Bool.eqb p q
  | CStr s, CStr t => String.eqb s t
  | _, _ => false
  end.

Definition is_nan (c : cell) : bool := match c with CNaN => true | _ => false end.

Fixpoint unique_aux (seen : list cell) (cs : list cell) : list cell :=
  match cs with
  | [] => rev seen
  | c :: cs' =>
      if existsb (cell_eqb c) seen then unique_aux seen cs' else unique_aux (c :: seen) cs'
  end.

(** [pd.unique]: the distinct values in first-seen order. *)
Definition unique (cs : list cell) : list cell := unique_aux [] cs.

Definition cell_leb (a b : cell) : bool :=
  match cell_to_Q a, cell_to_Q b with
  | Some p, Some q => Qle_bool p q
  | _, _ => true
  end.

Fixpoint insert_sorted (c : cell) (cs : list cell) : list cell :=
  match cs with
  | [] => [c]
  | d :: cs' => if cell_leb c d then c :: cs else d :: insert_sorted c cs'
  end.

Definition sort_cells (cs : list cell) : list cell := fold_right insert_sorted [] cs.

(** seaborn's [categorical_order]: the distinct non-null values, in
    first-seen order, sorted when the variable is numeric. *)
Definition categorical_order (vs : list cell) : list cell :=
  let order := filter (fun c => negb (is_nan c)) (unique vs) in
  match variable_type vs with
  | VNumeric => sort_cells order
  | VCategorical => order
  end.

Definition Qsum (qs : list Q) : Q := fold_right Qplus 0%Q qs.

Definition mean (qs : list Q) : option Q :=
  match qs with
  | [] => None
  | _ => Some (Qsum qs / inject_Z (Z.of_nat (length qs)))%Q
  end.

(** The value of a bar: the mean of the group's non-NA values; a string
    value raises as numpy's mean does. *)
Definition agg_mean (vs : list cell) : result (option Q) :=
  match map_result (fun c => match cell_to_Q c with
                             | Some q => Ok q
                             | None => Err (TypeError "could not convert string to float")
                             end) (filter (fun c => negb (is_nan c)) vs) with
  | Ok qs => Ok (mean qs)
  | Err e => Err e
  end.

(** The non-NA values of [vals] on the rows where [cats] is at level [l]
    (rows where either variable is NA are dropped). *)
Definition group_cells (cats vals : list cell) (l : cell) : list cell :=
  map snd (filter (fun '(c, _) => cell_eqb l c)
             (filter (fun '(c, v) => negb (is_nan c || is_nan v)) (combine cats vals))).

(** One bar per level of the categorical variable [cats]: the level and
    the mean of [vals] over the rows at that level. *)
Definition group_means (cats vals : list cell) : result (list (cell * option Q)) :=
  map_result (fun l =>
      match agg_mean (group_cells cats vals l) with
      | Ok m => Ok (l, m)
      | Err e => Err e
      end) (categorical_order cats).

Definition could_not_interpret (v key : string) : exn :=
  ValueError (String.append "Could not interpret value `"
    (String.append v (String.append "` for `" (String.append key
      "`. An entry with this name does not appear in `data`.")))).

(** The variable [x] or [y] named [v] of [data]. *)
Definition plot_variable (data : DataFrame) (v key : string) : result (list cell) :=
  match get_column data v with
  | Ok s => Ok s
  | Err _ => Err (could_not_interpret v key)
  end.

(** The bars of [sns.barplot(x=x, y=y, data=data)]: the bars' orientation
    and, per level, the estimate drawn. *)
Definition barplot_bars (x y : string) (data : DataFrame)
  : result (axis * list (cell * option Q)) :=
  match plot_variable data x "x" with
  | Err e => Err e
  | Ok xs =>
      match plot_variable data y "y" with
      | Err e => Err e
      | Ok ys =>
          let o := infer_orient (variable_type xs) (variable_type ys) in
          match (match o with AxisX => group_means xs ys | AxisY => group_means ys xs end) with
          | Ok bars => Ok (o, bars)
          | Err e => Err e
          end
      end
  end.

(** ** The interpreter state

    The world holds the files (path and bytes), the Python heap of
    DataFrame objects (an object is its position), [plt.rcParams], the
    current pyplot figure and what the run has output: the objects
    printed on standard output and the figures presented by [plt.show]. *)

Record Figure := mkFig {
  fig_size : Q * Q;
  fig_bars : list (axis * list (cell * option Q));
  fig_title : string;
  fig_xlabel : string;
  fig_ylabel : string
}.

Inductive output :=
| OPrint (df : DataFrame)
| OShow (fig : Figure).

Record World := mkWorld {
  w_files : list (string * string);
  w_heap : list DataFrame;
  w_rc : list (string * Z);
  w_fig : option Figure;
  w_out : list output
}.

(** Statements run in a state monad with Python exceptions: an exception
    ends the run, keeping the effects done before it. *)
Definition M (A : Type) : Type := World -> result A * World.

Definition ret {A} (a : A) : M A := fun w => (Ok a, w).

Definition bind {A B} (m : M A) (k : A -> M B) : M B :=
  fun w => match m w with
           | (Ok a, w') => k a w'
           | (Err e, w') => (Err e, w')
           end.

Definition lift {A} (r : result A) : M A := fun w => (r, w).

Notation "x <- m ;; k" := (bind m (fun x => k))
  (at level 61, m at next level, right associativity).
Notation "m ;;; k" := (bind m (fun _ => k))
  (at level 61, right associativity).

Fixpoint lookup_file (p : string) (fs : list (string * string)) : option string :=
  match fs with
  | [] => None
  | (p', c) :: fs' => if String.eqb p p' then Some c else lookup_file p fs'
  end.

Definition empty_df : DataFrame := mkDF [] [] [].

Definition heap_get (h : list DataFrame) (l : nat) : DataFrame := nth l h empty_df.

(** Allocation of a new DataFrame object. *)
Definition new_object (df : DataFrame) : M nat :=
  fun w => (Ok (length (w_heap w)),
            mkWorld (w_files w) (w_heap w ++ [df]) (w_rc w) (w_fig w) (w_out w)).

Definition deref (l : nat) : M DataFrame := fun w => (Ok (heap_get (w_heap w) l), w).

(** [pd.read_csv(path, encoding="ISO-8859-1")]: the file's bytes decode
    one to one into characters. *)
Definition read_csv (path : string) : M nat :=
  fun w =>
    match lookup_file path (w_files w) with
    | None => (Err (FileNotFoundError path), w)
    | Some bytes =>
        match read_csv_text bytes with
        | Ok df => new_object df w
        | Err e => (Err e, w)
        end
    end.

Definition print_df (l : nat) : M unit :=
  fun w => (Ok tt, mkWorld (w_files w) (w_heap w) (w_rc w) (w_fig w)
                       (w_out w ++ [OPrint (heap_get (w_heap w) l)])).

Definition set_fig (f : Figure) : M unit :=
  fun w => (Ok tt, mkWorld (w_files w) (w_heap w) (w_rc w) (Some f) (w_out w)).

(** [plt.figure(figsize=(a, b))]. *)
Definition plt_figure (a b : Q) : M unit := set_fig (mkFig (a, b) [] "" "" "").

(** [plt.rcParams[k] = v]. *)
Definition rc_set (k : string) (v : Z) : M unit :=
  fun w => (Ok tt, mkWorld (w_files w) (w_heap w) ((k, v) :: w_rc w) (w_fig w) (w_out w)).

(** [plt.gca()]: the current figure, created with the default size if
    there is none. *)
Definition gca : M Figure :=
  fun w => match w_fig w with
           | Some f => (Ok f, w)
           | None => let f := mkFig (64 # 10, 48 # 10)%Q [] "" "" "" in
                     (Ok f, mkWorld (w_files w) (w_heap w) (w_rc w) (Some f) (w_out w))
           end.

(** [df[k]] for a column name. *)
Definition getitem_col (l : nat) (k : string) : M (list cell) :=
  df <- deref l ;; lift (get_column df k).

(** [df[mask]] allocates the filtered DataFrame. *)
Definition getitem_mask (l : nat) (mask : list bool) : M nat :=
  df <- deref l ;; new_object (mask_rows df mask).

(** [sns.barplot(x=x, y=y, data=df)] draws on the current axes. *)
Definition barplot (x y : string) (l : nat) : M unit :=
  df <- deref l ;;
  bars <- lift (barplot_bars x y df) ;;
  f <- gca ;;
  set_fig (mkFig (fig_size f) (fig_bars f ++ [bars]) (fig_title f) (fig_xlabel f) (fig_ylabel f)).

Definition set_title (t : string) : M unit :=
  f <- gca ;; set_fig (mkFig (fig_size f) (fig_bars f) t (fig_xlabel f) (fig_ylabel f)).

Definition set_xlabel (t : string) : M unit :=
  f <- gca ;; set_fig (mkFig (fig_size f) (fig_bars f) (fig_title f) t (fig_ylabel f)).

Definition set_ylabel (t : string) : M unit :=
  f <- gca ;; set_fig (mkFig (fig_size f) (fig_bars f) (fig_title f) (fig_xlabel f) t).

(** [plt.show()]: presents the open figure, which is then closed. *)
Definition show : M unit :=
  fun w => match w_fig w with
           | Some f => (Ok tt, mkWorld (w_files w) (w_heap w) (w_rc w) None (w_out w ++ [OShow f]))
           | None => (Ok tt, w)
           end.

(** ** The script *)

Definition data_filepath : string := "/Users/ethankelly/IdeaProjects/Equations/data-reg-diff.csv".

Definition chart_title : string :=
  String.append "Reduction in numbers of equations needed for ER"
    (String "010"%char "graphs after using closures").

(** Lines 10-16. *)
Definition load_stage : M nat :=
  dataframe <- read_csv data_filepath ;;
  print_df dataframe ;;;
  plt_figure 12 8 ;;;
  rc_set "figure.dpi" 300 ;;;
  rc_set "savefig.dpi" 300 ;;;
  ret dataframe.

(** Line 18: [dataframe[dataframe["probability"] >= 00]], then the bar plot. *)
Definition plot_line (dataframe : nat) : M unit :=
  prob <- getitem_col dataframe "probability" ;;
  mask <- lift (series_ge prob 0) ;;
  sub <- getitem_mask dataframe mask ;;
  barplot "probability" "difference" sub.

(** Lines 23-28. *)
Definition label_and_show : M unit :=
  set_title chart_title ;;;
  set_xlabel "Probability" ;;;
  set_ylabel "Difference in number of equations" ;;;
  show.

(** Lines 18-28. *)
Definition plot_stage (dataframe : nat) : M unit :=
  plot_line dataframe ;;; label_and_show.

Definition chart_py : M unit :=
  dataframe <- load_stage ;; plot_stage dataframe.

(** The rows that reach the plot: [df[df["probability"] >= 00]]. *)
Definition filter_frame (df : DataFrame) : result DataFrame :=
  match get_column df "probability" with
  | Err e => Err e
  | Ok prob =>
      match series_ge prob 0 with
      | Err e => Err e
      | Ok mask => Ok (mask_rows df mask)
      end
  end.

(** The bars drawn for [sns.barplot(x=x, y=y, data=df[df["probability"] >= 00])]. *)
Definition render (x y : string) (df : DataFrame) : result (axis * list (cell * option Q)) :=
  match filter_frame df with
  | Err e => Err e
  | Ok sub => barplot_bars x y sub
  end.

Definition text_of (ls : list string) : string :=
  fold_right (fun l acc => String.append l (String "010"%char acc)) "" ls.

Definition w0 (files : list (string * string)) : World := mkWorld files [] [] None [].

(** ** The box-plot variant *)

Fixpoint insert_Q (q : Q) (qs : list Q) : list Q :=
  match qs with
  | [] => [q]
  | r :: qs' => if Qle_bool q r then q :: qs else r :: insert_Q q qs'
  end.

Definition sort_Q (qs : list Q) : list Q := fold_right insert_Q [] qs.

(** The [p]-th quantile of a sorted sample, interpolating linearly between
    the two nearest order statistics (the standard definition, numpy's
    default). *)
Definition percentile (sorted : list Q) (p : Q) : Q :=
  let pos := (p * inject_Z (Z.of_nat (length sorted - 1)))%Q in
  let i := Z.to_nat (Qfloor pos) in
  let frac := (pos - inject_Z (Qfloor pos))%Q in
  let lo := nth i sorted 0%Q in
  let hi := nth (S i) sorted lo in
  (lo + frac * (hi - lo))%Q.

Record BoxStats := mkBox {
  whislo : Q;
  q1 : Q;
  med : Q;
  q3 : Q;
  whishi : Q
}.

(** Modelled from the spec: the box-plot variant of the second script,
    which is not under src/ ("compute the five-number summary (min, Q1,
    median, Q3, max) per group excluding outlier display").  Median, Q1
    and Q3 are the 50th, 25th and 75th percentiles; the outliers whose
    display is hidden are the values beyond 1.5 IQR from the box (the
    whisker rule of [sns.boxplot]), so the whiskers end at the most
    extreme values within that range. *)
Definition box_stats (vs : list Q) : option BoxStats :=
  match vs with
  | [] => None
  | _ =>
      let s := sort_Q vs in
      let lq := percentile s (1 # 4) in
      let m := percentile s (1 # 2) in
      let uq := percentile s (3 # 4) in
      let iqr := (uq - lq)%Q in
      let hival := (uq + (3 # 2) * iqr)%Q in
      let loval := (lq - (3 # 2) * iqr)%Q in
      let wiskhi := filter (fun x => Qle_bool x hival) s in
      let wisklo := filter (fun x => Qle_bool loval x) s in
      let hi := match rev wiskhi with
                | x :: _ => if Qle_bool uq x then x else uq
                | [] => uq
                end in
      let lo := match wisklo with
                | x :: _ => if Qle_bool x lq then x else lq
                | [] => lq
                end in
      Some (mkBox lo lq m uq hi)
  end.

Definition to_numbers (vs : list cell) : result (list Q) :=
  map_result (fun c => match cell_to_Q c with
                       | Some q => Ok q
                       | None => Err (TypeError "could not convert string to float")
                       end) vs.

(** Modelled from the spec: the boxes of the box-plot variant, one per
    level of [x] over the filtered rows, as for the bar chart. *)
Definition render_box (x y : string) (df : DataFrame) : result (list (cell * option BoxStats)) :=
  match filter_frame df with
  | Err e => Err e
  | Ok sub =>
      match get_column sub x, get_column sub y with
      | Ok xs, Ok ys =>
          map_result (fun l =>
              match to_numbers (group_cells xs ys l) with
              | Ok qs => Ok (l, box_stats qs)
              | Err e => Err e
              end) (categorical_order xs)
      | Err e, _ => Err e
      | _, Err e => Err e
      end
  end.

(** ** Predicates used in the statements *)

(** [row.probability >= 0] for a cell. *)
Definition nonneg_cell (c : cell) : bool :=
  match cell_to_Q c with Some q => Qle_bool 0 q | None => false end.

(** [row.probability < 0] for a cell. *)
Definition negative_cell (c : cell) : bool :=
  match cell_to_Q c with Some q => negb (Qle_bool 0 q) | None => false end.

(** The table without its rows whose probability is negative. *)
Definition drop_negative (df : DataFrame) : DataFrame :=
  match index_of "probability" (df_columns df) with
  | None => df
  | Some j => mask_rows df (map (fun r => negb (negative_cell (nth j r CNaN))) (df_rows df))
  end.

Definition is_str (c : cell) : bool := match c with CStr _ => true | _ => false end.



(** A character of a blank line: space, tab, [\n] or [\r]. *)
Definition is_blank (c : ascii) : bool :=
  IS_WHITESPACE c || IS_TERMINATOR c || IS_CARRIAGE c.

Definition is_parser_error (e : exn) : bool :=
  match e with ParserError _ _ _ | ParserErrorEOF _ => true | _ => false end.

(** The column [k] exists and holds no string. *)
Definition column_is_numeric (df : DataFrame) (k : string) : bool :=
  match get_column df k with
  | Ok vs => negb (existsb is_str vs)
  | Err _ => false
  end.

(** * Properties *)

(** ** Tables used by the concrete statements *)

Definition load_text (text : string) : DataFrame :=
  match read_csv_text text with Ok df => df | Err _ => empty_df end.

Definition table_means : DataFrame :=
  load_text (text_of ["probability,result"; "0.1,5"; "0.1,7"; "0.2,3"]).

Definition table_box : DataFrame :=
  load_text (text_of ["probability,difference"; "0.5,1"; "0.5,2"; "0.5,3";
                      "0.5,4"; "0.5,5"; "0.5,100"]).

(** C1: with value column [result], the bar drawn for probability 0.1 is
    the mean 6 of 5 and 7, the bar for 0.2 is 3. *)
Theorem barplot_means_example :
  match render "probability" "result" table_means with
  | Ok (AxisX, [(CNum k1, Some m1); (CNum k2, Some m2)]) =>
      (k1 == 1 # 10 /\ m1 == 6 /\ k2 == 2 # 10 /\ m2 == 3)%Q
  | _ => False
  end.
Proof. vm_compute. repeat split; reflexivity. Qed.

(** C3 (box-plot variant, modelled from the spec): for the values
    1, 2, 3, 4, 5, 100 under one category, median = 3.5, Q1 = 2.25,
    Q3 = 4.75 and the whiskers span 1 to 5, not reaching 100. *)
Theorem box_whiskers_hide_outlier :
  match render_box "probability" "difference" table_box with
  | Ok [(_, Some b)] =>
      (whislo b == 1 /\ q1 b == 9 # 4 /\ med b == 7 # 2 /\ q3 b == 19 # 4 /\
       whishi b == 5 /\ whishi b < 100)%Q
  | _ => False
  end.
Proof. vm_compute. repeat split; reflexivity. Qed.

(** ** Lemmas on the list operations *)


Lemma ge_cell_zero (c : cell) :
  ge_cell 0 c = if is_str c
                then Err (TypeError "'>=' not supported between instances of 'str' and 'int'")
                else Ok (nonneg_cell c).
Proof. destruct c; reflexivity. Qed.

(** [series >= 0] raises exactly when the series holds a string, and is
    otherwise the pointwise [nonneg_cell]. *)
Lemma series_ge_zero (s : list cell) :
  series_ge s 0 = if existsb is_str s
                  then Err (TypeError "'>=' not supported between instances of 'str' and 'int'")
                  else Ok (map nonneg_cell s).
Proof.
  unfold series_ge. induction s as [|c s IH]; simpl; [reflexivity|].
  rewrite ge_cell_zero. destruct (is_str c); simpl; [reflexivity|].
  rewrite IH. destruct (existsb is_str s); reflexivity.
Qed.

Lemma select_map_filter {A} (p : A -> bool) (xs : list A) :
  select (map p xs) xs = filter p xs.
Proof. induction xs as [|x xs IH]; simpl; [|destruct (p x); rewrite IH]; reflexivity. Qed.

Lemma map_select {A B} (f : A -> B) (m : list bool) (xs : list A) :
  map f (select m xs) = select m (map f xs).
Proof.
  revert xs; induction m as [|b m IH]; intros [|x xs]; simpl; try reflexivity.
  destruct b; simpl; rewrite IH; reflexivity.
Qed.

Lemma select_nil_r {A} (m : list bool) : select m (@nil A) = [].
Proof. destruct m as [|[] m]; reflexivity. Qed.

(** Selecting first with a mask [g] that keeps every element [h] keeps,
    then with [h], selects with [h]. *)
Lemma select_select {A C} (g h : C -> bool) (s : list C) (xs : list A) :
  (forall c, h c = true -> g c = true) ->
  select (select (map g s) (map h s)) (select (map g s) xs) = select (map h s) xs.
Proof.
  intros Hgh. revert xs; induction s as [|c s IH]; intros [|x xs]; simpl; try reflexivity.
  - rewrite !select_nil_r. reflexivity.
  - destruct (g c) eqn:Eg; simpl.
    + destruct (h c); rewrite IH; reflexivity.
    + destruct (h c) eqn:Eh; [rewrite (Hgh c Eh) in Eg; discriminate|]. apply IH.
Qed.

Lemma existsb_select_str (s : list cell) :
  existsb is_str (select (map (fun c => negb (negative_cell c)) s) s) = existsb is_str s.
Proof.
  induction s as [|c s IH]; simpl; [reflexivity|].
  destruct (negb (negative_cell c)) eqn:E; simpl.
  - rewrite IH. reflexivity.
  - destruct c; simpl in E |- *; try discriminate; exact IH.
Qed.

Lemma nonneg_not_negative (c : cell) :
  nonneg_cell c = true -> negb (negative_cell c) = true.
Proof.
  unfold nonneg_cell, negative_cell. destruct (cell_to_Q c); [|discriminate].
  intros ->. reflexivity.
Qed.

Lemma filter_frame_drop_negative (df : DataFrame) :
  filter_frame (drop_negative df) = filter_frame df.
Proof.
  unfold drop_negative. destruct (index_of "probability" (df_columns df)) as [j|] eqn:Ej;
    [|reflexivity].
  destruct df as [idx cols rows]; simpl in *.
  unfold filter_frame, get_column; simpl. rewrite Ej.
  set (s := map (fun r => nth j r CNaN) rows).
  assert (Hk : map (fun r => negb (negative_cell (nth j r CNaN))) rows
               = map (fun c => negb (negative_cell c)) s).
  { unfold s. rewrite map_map. reflexivity. }
  rewrite Hk, map_select. fold s.
  rewrite !series_ge_zero, existsb_select_str.
  destruct (existsb is_str s); [reflexivity|].
  rewrite map_select. unfold mask_rows; simpl.
  rewrite !(select_select (fun c => negb (negative_cell c)) nonneg_cell s)
    by exact nonneg_not_negative.
  reflexivity.
Qed.

(** C2: the rows that reach the plot are exactly the rows whose
    probability is a number [>= 0] (0 included; NaN and negative rows
    excluded), and removing the rows with a negative probability changes
    neither the filtered table nor any bar (mean) or box (median,
    quartiles, whiskers) drawn from it. *)
Theorem filter_keeps_exactly_nonneg :
  (forall df sub, filter_frame df = Ok sub ->
     exists j, index_of "probability" (df_columns df) = Some j /\
       df_columns sub = df_columns df /\
       df_rows sub = filter (fun r => nonneg_cell (nth j r CNaN)) (df_rows df)) /\
  (forall df, filter_frame (drop_negative df) = filter_frame df /\
     (forall x y, render x y (drop_negative df) = render x y df) /\
     (forall x y, render_box x y (drop_negative df) = render_box x y df)).
Proof.
  split.
  - intros [idx cols rows] sub H. unfold filter_frame, get_column in H; simpl in H.
    destruct (index_of "probability" cols) as [j|] eqn:Ej; [|discriminate].
    rewrite series_ge_zero in H.
    destruct (existsb is_str _); [discriminate|]. injection H as <-.
    exists j. split; [exact Ej|]. split; [reflexivity|].
    simpl. rewrite map_map. apply select_map_filter.
  - intros df. pose proof (filter_frame_drop_negative df) as E.
    unfold render, render_box. rewrite E. auto.
Qed.

Definition table_mixed : DataFrame :=
  load_text (text_of ["probability,difference"; "0.1,5"; "-0.1,7"; "0,3"; "NaN,4"]).

Lemma filter_keeps_exactly_nonneg_witness :
  filter_frame table_mixed = Ok (mask_rows table_mixed [true; false; true; false]) /\
  exists j, index_of "probability" (df_columns table_mixed) = Some j /\
    df_columns (mask_rows table_mixed [true; false; true; false]) = df_columns table_mixed /\
    df_rows (mask_rows table_mixed [true; false; true; false])
    = filter (fun r => nonneg_cell (nth j r CNaN)) (df_rows table_mixed).
Proof.
  split; [vm_compute; reflexivity|].
  apply (proj1 filter_keeps_exactly_nonneg). vm_compute. reflexivity.
Defined.

(** ** Column lookup *)

Lemma index_of_None (k : string) (cols : list string) :
  index_of k cols = None <-> ~ In k cols.
Proof.
  induction cols as [|c cols IH]; simpl; [tauto|].
  destruct (String.eqb k c) eqn:E.
  - apply String.eqb_eq in E. subst.
    split; [discriminate|]. intros H. exfalso. apply H. left. reflexivity.
  - apply String.eqb_neq in E. destruct (index_of k cols) eqn:E2.
    + split; [discriminate|]. intros H. exfalso. apply H. right.
      destruct (In_dec String.string_dec k cols) as [Hin|Hin]; [exact Hin|].
      apply IH in Hin. discriminate.
    + split; [|reflexivity]. intros _ [->|Hin]; [apply E; reflexivity|].
      exact (proj1 IH eq_refl Hin).
Qed.

Lemma get_column_missing (df : DataFrame) (k : string) :
  ~ In k (df_columns df) -> get_column df k = Err (KeyError k).
Proof.
  intros H. unfold get_column. apply index_of_None in H. rewrite H. reflexivity.
Qed.

Lemma get_column_present (df : DataFrame) (k : string) :
  In k (df_columns df) -> exists vs, get_column df k = Ok vs.
Proof.
  intros H. unfold get_column. destruct (index_of k (df_columns df)) eqn:E; [eauto|].
  apply index_of_None in E. contradiction.
Qed.

Lemma heap_get_new (h : list DataFrame) (df : DataFrame) :
  heap_get (h ++ [df]) (length h) = df.
Proof. unfold heap_get. apply nth_middle. Qed.

Lemma column_is_numeric_ok (df : DataFrame) (k : string) :
  column_is_numeric df k = true ->
  exists vs, get_column df k = Ok vs /\ existsb is_str vs = false.
Proof.
  unfold column_is_numeric. destruct (get_column df k) as [vs|]; [|discriminate].
  intros H. exists vs. split; [reflexivity|]. destruct (existsb is_str vs); [discriminate|reflexivity].
Qed.

(** ** Missing columns *)

Definition table_text : string :=
  text_of ["probability,difference"; "0.1,5"; ""; "0.2"; "0,1"].

Definition long_first_text : string :=
  text_of ["a,b"; "x,1,2"; "y,3"; ""; "z,4,5"].

Definition table_prob_only : DataFrame :=
  load_text (text_of ["probability,result"; "0.1,5"; "0.2,3"]).

(** C4 fails: with the category column present and the value column
    [difference] absent, seaborn raises [ValueError], not [KeyError]. *)
Lemma missing_value_column_raises_ValueError :
  ~ In "difference" (df_columns table_prob_only) /\
  fst (plot_stage 0 (mkWorld [] [table_prob_only] [] None []))
  = Err (could_not_interpret "difference" "y") /\
  (forall k, fst (plot_stage 0 (mkWorld [] [table_prob_only] [] None [])) <> Err (KeyError k)).
Proof.
  split; [vm_compute; intuition discriminate|].
  split; [vm_compute; reflexivity|].
  intros k. vm_compute. discriminate.
Qed.

(** C4 (as the code behaves): a missing category column [probability]
    raises [KeyError] at the filter; a missing value column [difference]
    (the category column being present and comparable to 0) raises
    seaborn's [ValueError].  Either error ends the run: no column is
    substituted, nothing is drawn, printed or shown. *)
Theorem missing_column_raises :
  forall w l,
  (~ In "probability" (df_columns (heap_get (w_heap w) l)) ->
     plot_stage l w = (Err (KeyError "probability"), w)) /\
  (In "probability" (df_columns (heap_get (w_heap w) l)) ->
   ~ In "difference" (df_columns (heap_get (w_heap w) l)) ->
   column_is_numeric (heap_get (w_heap w) l) "probability" = true ->
     exists w', plot_stage l w = (Err (could_not_interpret "difference" "y"), w') /\
       w_out w' = w_out w /\ w_fig w' = w_fig w /\ w_files w' = w_files w).
Proof.
  intros w l. split.
  - intros H. unfold plot_stage, plot_line, getitem_col, bind, deref, lift.
    rewrite (get_column_missing _ _ H). reflexivity.
  - intros Hp Hd Hn.
    destruct (column_is_numeric_ok _ _ Hn) as [vs [Hvs Hstr]].
    unfold plot_stage, plot_line, getitem_col, getitem_mask, barplot, bind, deref, lift.
    rewrite Hvs, series_ge_zero, Hstr.
    unfold new_object. simpl. rewrite heap_get_new.
    unfold barplot_bars, plot_variable.
    destruct (get_column_present (mask_rows (heap_get (w_heap w) l) (map nonneg_cell vs))
                "probability" Hp) as [xs Hxs].
    rewrite Hxs.
    rewrite (get_column_missing (mask_rows (heap_get (w_heap w) l) (map nonneg_cell vs))
               "difference" Hd).
    eexists. split; [reflexivity|]. simpl. auto.
Qed.

Lemma missing_column_raises_witness :
  plot_stage 0 (mkWorld [] [table_means] [] None [])
  = (Err (could_not_interpret "difference" "y"),
     snd (plot_stage 0 (mkWorld [] [table_means] [] None []))) /\
  plot_stage 0 (mkWorld [] [empty_df] [] None [])
  = (Err (KeyError "probability"), mkWorld [] [empty_df] [] None []).
Proof.
  split.
  - destruct (proj2 (missing_column_raises (mkWorld [] [table_means] [] None []) 0))
      as [w' [E _]].
    + vm_compute. auto.
    + vm_compute. intuition discriminate.
    + vm_compute. reflexivity.
    + rewrite E. reflexivity.
  - apply (proj1 (missing_column_raises (mkWorld [] [empty_df] [] None []) 0)).
    vm_compute. intros [].
Defined.

(** ** The loader *)






Lemma first_long_none (e : nat) (recs : list (nat * list string)) :
  Forall (fun '(_, fs) => length fs <= e) recs -> first_long e recs = None.
Proof.
  induction recs as [|[ln fs] recs IH]; intros H; simpl; [reflexivity|].
  inversion H as [|? ? Hfs Ht]; subst.
  destruct (e <? length fs) eqn:E; [apply Nat.ltb_lt in E; lia|]. apply IH, Ht.
Qed.

Lemma first_long_some (e : nat) (recs : list (nat * list string)) ln fs :
  In (ln, fs) recs -> e < length fs -> exists ln' saw, first_long e recs = Some (ln', saw).
Proof.
  induction recs as [|[ln0 fs0] recs IH]; intros Hin Hlt; simpl; [contradiction|].
  destruct (e <? length fs0) eqn:E; [eauto|].
  destruct Hin as [Heq|Hin].
  - injection Heq as <- <-. apply Nat.ltb_nlt in E. lia.
  - apply IH; assumption.
Qed.

Lemma convert_block_length (n : nat) (raw : list (list string)) :
  length (convert_block n raw) = length raw.
Proof. unfold convert_block. apply length_map. Qed.







(** The table read from a text whose data records are no longer than
    the header: default index, the header's names, the padded records
    converted. *)
Lemma read_csv_text_fits (text : string) n header data :
  tokenize text = ((n, header) :: data, None) ->
  Forall (fun '(_, fs) => length fs <= length header) data ->
  read_csv_text text
  = Ok (mkDF (range_index (length data)) (dedup_names (header_names header))
          (convert_block (length header) (map (fun '(_, fs) => pad (length header) fs) data))).
Proof.
  intros Ht Hlen. unfold read_csv_text. rewrite Ht.
  assert (He : match data with
               | [] => length header
               | (_, fs) :: _ => Nat.max (length header) (length fs)
               end = length header).
  { destruct data as [|[ln fs] data]; [reflexivity|]. inversion Hlen; subst. lia. }
  rewrite He, first_long_none
    by (destruct data; simpl; [constructor|inversion Hlen; assumption]).
  rewrite Nat.sub_diag. simpl. rewrite length_map.
  rewrite map_id. reflexivity.
Qed.

Lemma length_pad (n : nat) (fs : list string) :
  length fs <= n -> length (pad n fs) = n.
Proof. intros H. unfold pad. rewrite length_app, repeat_length. lia. Qed.





Definition dq : string := String "034"%char EmptyString.







(** ** Frame properties of the statements

    [preserves R m]: running [m] relates the world before and after by
    [R], whatever its outcome. *)

Section Frame.
Variable R : World -> World -> Prop.
Hypothesis R_refl : forall w, R w w.
Hypothesis R_trans : forall w1 w2 w3, R w1 w2 -> R w2 w3 -> R w1 w3.

Definition preserves {A} (m : M A) : Prop := forall w, R w (snd (m w)).

Lemma preserves_ret {A} (a : A) : preserves (ret a).
Proof. intros w. apply R_refl. Qed.

Lemma preserves_lift {A} (r : result A) : preserves (lift r).
Proof. intros w. apply R_refl. Qed.

Lemma preserves_deref (l : nat) : preserves (deref l).
Proof. intros w. apply R_refl. Qed.

Lemma preserves_bind {A B} (m : M A) (k : A -> M B) :
  preserves m -> (forall a, preserves (k a)) -> preserves (bind m k).
Proof.
  intros Hm Hk w. specialize (Hm w). unfold bind.
  destruct (m w) as [[a|e] w'] eqn:E; simpl in *; [|exact Hm].
  eapply R_trans; [exact Hm|apply Hk].
Qed.
End Frame.

Definition same_files (w w' : World) : Prop := w_files w' = w_files w.
Definition same_out (w w' : World) : Prop := w_out w' = w_out w.
Definition heap_extends (w w' : World) : Prop := exists ext, w_heap w' = w_heap w ++ ext.

Lemma same_files_trans w1 w2 w3 : same_files w1 w2 -> same_files w2 w3 -> same_files w1 w3.
Proof. unfold same_files. congruence. Qed.

Lemma same_out_trans w1 w2 w3 : same_out w1 w2 -> same_out w2 w3 -> same_out w1 w3.
Proof. unfold same_out. congruence. Qed.

Lemma heap_extends_trans w1 w2 w3 : heap_extends w1 w2 -> heap_extends w2 w3 -> heap_extends w1 w3.
Proof.
  intros [e1 H1] [e2 H2]. exists (e1 ++ e2). rewrite H2, H1, app_assoc. reflexivity.
Qed.

Lemma same_files_refl w : same_files w w. Proof. reflexivity. Qed.
Lemma same_out_refl w : same_out w w. Proof. reflexivity. Qed.
Lemma heap_extends_refl w : heap_extends w w.
Proof. exists []. rewrite app_nil_r. reflexivity. Qed.

(** Tactic proving a frame property of a statement built with [bind]
    from the primitives, given the primitives' lemmas in [frame]. *)
Create HintDb frame.

Ltac frame_step refl trans :=
  match goal with
  | |- preserves _ (bind _ _) => apply preserves_bind; [exact trans| |intros ?]
  | |- preserves _ (ret _) => apply preserves_ret; exact refl
  | |- preserves _ (lift _) => apply preserves_lift; exact refl
  | |- preserves _ (deref _) => apply preserves_deref; exact refl
  | |- _ => solve [eauto with frame]
  end.

Ltac frame refl trans := repeat (frame_step refl trans).

Lemma files_read_csv p : preserves same_files (read_csv p).
Proof.
  intros w. unfold read_csv, same_files.
  destruct (lookup_file p (w_files w)); [|reflexivity].
  destruct (read_csv_text s); reflexivity.
Qed.

Lemma files_new_object df : preserves same_files (new_object df).
Proof. intros w. reflexivity. Qed.
Lemma files_print_df l : preserves same_files (print_df l).
Proof. intros w. reflexivity. Qed.
Lemma files_set_fig f : preserves same_files (set_fig f).
Proof. intros w. reflexivity. Qed.
Lemma files_plt_figure a b : preserves same_files (plt_figure a b).
Proof. intros w. reflexivity. Qed.
Lemma files_rc_set k v : preserves same_files (rc_set k v).
Proof. intros w. reflexivity. Qed.
Lemma files_gca : preserves same_files gca.
Proof. intros w. unfold gca. destruct (w_fig w); reflexivity. Qed.
Lemma files_show : preserves same_files show.
Proof. intros w. unfold show. destruct (w_fig w); reflexivity. Qed.

Lemma out_read_csv p : preserves same_out (read_csv p).
Proof.
  intros w. unfold read_csv, same_out.
  destruct (lookup_file p (w_files w)); [|reflexivity].
  destruct (read_csv_text s); reflexivity.
Qed.
Lemma out_new_object df : preserves same_out (new_object df).
Proof. intros w. reflexivity. Qed.
Lemma out_set_fig f : preserves same_out (set_fig f).
Proof. intros w. reflexivity. Qed.
Lemma out_plt_figure a b : preserves same_out (plt_figure a b).
Proof. intros w. reflexivity. Qed.
Lemma out_rc_set k v : preserves same_out (rc_set k v).
Proof. intros w. reflexivity. Qed.
Lemma out_gca : preserves same_out gca.
Proof. intros w. unfold gca. destruct (w_fig w); reflexivity. Qed.

Lemma heap_read_csv p : preserves heap_extends (read_csv p).
Proof.
  intros w. unfold read_csv.
  destruct (lookup_file p (w_files w)); [|apply heap_extends_refl].
  destruct (read_csv_text s); [|apply heap_extends_refl]. simpl. eexists. reflexivity.
Qed.
Lemma heap_new_object df : preserves heap_extends (new_object df).
Proof. intros w. eexists. reflexivity. Qed.
Lemma heap_print_df l : preserves heap_extends (print_df l).
Proof. intros w. exists []. simpl. rewrite app_nil_r. reflexivity. Qed.
Lemma heap_set_fig f : preserves heap_extends (set_fig f).
Proof. intros w. exists []. simpl. rewrite app_nil_r. reflexivity. Qed.
Lemma heap_plt_figure a b : preserves heap_extends (plt_figure a b).
Proof. intros w. exists []. simpl. rewrite app_nil_r. reflexivity. Qed.
Lemma heap_rc_set k v : preserves heap_extends (rc_set k v).
Proof. intros w. exists []. simpl. rewrite app_nil_r. reflexivity. Qed.
Lemma heap_gca : preserves heap_extends gca.
Proof. intros w. unfold gca. exists []. destruct (w_fig w); simpl; rewrite app_nil_r; reflexivity. Qed.
Lemma heap_show : preserves heap_extends show.
Proof. intros w. unfold show. exists []. destruct (w_fig w); simpl; rewrite app_nil_r; reflexivity. Qed.

#[local] Hint Resolve files_read_csv files_new_object files_print_df files_set_fig
  files_plt_figure files_rc_set files_gca files_show
  out_read_csv out_new_object out_set_fig out_plt_figure out_rc_set out_gca
  heap_read_csv heap_new_object heap_print_df heap_set_fig heap_plt_figure
  heap_rc_set heap_gca heap_show : frame.

Lemma files_chart_py : preserves same_files chart_py.
Proof.
  unfold chart_py, load_stage, plot_stage, label_and_show, plot_line, getitem_col,
    getitem_mask, barplot, set_title, set_xlabel, set_ylabel.
  frame same_files_refl same_files_trans.
Qed.

Lemma out_plot_line l : preserves same_out (plot_line l).
Proof.
  unfold plot_line, getitem_col, getitem_mask, barplot.
  frame same_out_refl same_out_trans.
Qed.

Lemma heap_plot_stage l : preserves heap_extends (plot_stage l).
Proof.
  unfold plot_stage, label_and_show, plot_line, getitem_col, getitem_mask,
    barplot, set_title, set_xlabel, set_ylabel.
  frame heap_extends_refl heap_extends_trans.
Qed.

Lemma heap_get_app_l (h ext : list DataFrame) (l : nat) :
  l < length h -> heap_get (h ++ ext) l = heap_get h l.
Proof. intros H. unfold heap_get. apply app_nth1, H. Qed.

(** C6: reading the same file twice gives two distinct DataFrame objects
    with the same contents, or the same error twice. *)
Theorem read_csv_idempotent :
  forall w p,
  match read_csv p w with
  | (Ok l1, w1) =>
      match read_csv p w1 with
      | (Ok l2, w2) => l1 <> l2 /\ heap_get (w_heap w2) l1 = heap_get (w_heap w2) l2
      | (Err _, _) => False
      end
  | (Err e1, w1) => read_csv p w1 = (Err e1, w1)
  end.
Proof.
  intros w p. unfold read_csv.
  destruct (lookup_file p (w_files w)) as [text|] eqn:Ef; [|rewrite Ef; reflexivity].
  destruct (read_csv_text text) as [df|e] eqn:Er; [|rewrite Ef, Er; reflexivity].
  simpl. rewrite Ef, Er. simpl.
  split; [rewrite length_app; simpl; lia|].
  rewrite heap_get_new, heap_get_app_l by (rewrite length_app; simpl; lia).
  rewrite heap_get_new. reflexivity.
Qed.

(** ** Loader errors *)

Definition ragged_text : string :=
  text_of ["probability,difference"; "0.1"; "0.2,3"].

(** C7 fails: a file whose lines have inconsistent field counts (a
    short line) is read without [ParserError], and the run completes. *)
Lemma short_line_no_ParserError :
  map (fun '(_, fs) => length fs) (fst (tokenize ragged_text)) = [2; 1; 2] /\
  fst (read_csv data_filepath (w0 [(data_filepath, ragged_text)])) = Ok 0 /\
  fst (chart_py (w0 [(data_filepath, ragged_text)])) = Ok tt.
Proof. split; [reflexivity|]. split; vm_compute; reflexivity. Qed.

Definition blank_state (st : tstate) : bool :=
  match st with START_RECORD | WHITESPACE_LINE | EAT_CRNL_NOP => true | _ => false end.

(** Blank characters never start a record. *)
Lemma tokenize_blank_chars (cs : list ascii) :
  forall p, forallb is_blank cs = true -> blank_state (p_state p) = true -> p_records p = [] ->
  blank_state (p_state (fold_left (fun p c => tokenize_char c p) cs p)) = true /\
  p_records (fold_left (fun p c => tokenize_char c p) cs p) = [].
Proof.
  induction cs as [|c cs IH]; intros p Hb Hst Hr; simpl in *; [split; assumption|].
  apply andb_true_iff in Hb as [Hc Hcs].
  destruct p as [st fl fld flds recs]; simpl in *; subst recs.
  unfold is_blank in Hc.
  apply IH; [exact Hcs| |];
    destruct st; try discriminate;
    unfold tokenize_char, start_record, start_field, in_field; simpl;
    destruct (IS_TERMINATOR c), (IS_CARRIAGE c), (IS_WHITESPACE c), (IS_QUOTE c),
      (IS_DELIMITER c); try discriminate; reflexivity.
Qed.

Lemma tokenize_blank (text : string) :
  forallb is_blank (list_ascii_of_string text) = true -> tokenize text = ([], None).
Proof.
  intros H. unfold tokenize.
  destruct (tokenize_blank_chars (list_ascii_of_string text) init_parser H eq_refl eq_refl)
    as [Hst Hr].
  unfold handle_eof.
  destruct (p_state _); try discriminate; rewrite Hr; reflexivity.
Qed.

(** C7 (as the code behaves): a missing file raises
    [FileNotFoundError]; a text without records (empty, or made of blank
    lines) [EmptyDataError]; a data record after the first with more
    fields than both the header and the first data record raises
    [ParserError], and so does a text ending inside a quoted field; data
    records no longer than the header, in a text without an unterminated
    quoted field, raise nothing (short ones are padded with NaN).  No
    error of the loader is caught: it is the outcome of the run, which
    stops before printing, plotting or showing anything. *)
Theorem loader_errors_propagate :
  forall w,
  (lookup_file data_filepath (w_files w) = None ->
     chart_py w = (Err (FileNotFoundError data_filepath), w)) /\
  (forall text e, lookup_file data_filepath (w_files w) = Some text ->
     read_csv_text text = Err e -> chart_py w = (Err e, w)) /\
  (forall text, tokenize text = ([], None) -> read_csv_text text = Err EmptyDataError) /\
  (forall text, forallb is_blank (list_ascii_of_string text) = true ->
     read_csv_text text = Err EmptyDataError) /\
  (forall text n header m fs1 rest eof ln fs,
     tokenize text = ((n, header) :: (m, fs1) :: rest, eof) -> In (ln, fs) rest ->
     Nat.max (length header) (length fs1) < length fs ->
     exists ln' saw,
       read_csv_text text = Err (ParserError (Nat.max (length header) (length fs1)) ln' saw)) /\
  (forall text recs row, tokenize text = (recs, Some row) ->
     exists e, read_csv_text text = Err e /\ is_parser_error e = true) /\
  (forall text n header data,
     tokenize text = ((n, header) :: data, None) ->
     Forall (fun '(_, fs) => length fs <= length header) data ->
     exists df, read_csv_text text = Ok df).
Proof.
  intros w. repeat split.
  - intros H. unfold chart_py, load_stage, read_csv, bind. rewrite H. reflexivity.
  - intros text e Hf Hr. unfold chart_py, load_stage, read_csv, bind.
    rewrite Hf, Hr. reflexivity.
  - intros text H. unfold read_csv_text. rewrite H. reflexivity.
  - intros text H. unfold read_csv_text. rewrite (tokenize_blank text H). reflexivity.
  - intros text n header m fs1 rest eof ln fs Ht Hin Hlt.
    destruct (first_long_some _ _ _ _ Hin Hlt) as [ln' [saw Hfl]].
    exists ln', saw. unfold read_csv_text. rewrite Ht. simpl. rewrite Hfl. reflexivity.
  - intros text recs row Ht. unfold read_csv_text. rewrite Ht.
    destruct recs as [|[n header] data]; [eexists; split; reflexivity|].
    destruct (first_long _ (tl data)) as [[ln saw]|]; eexists; split; reflexivity.
  - intros text n header data Ht Hlen.
    rewrite (read_csv_text_fits text n header data Ht Hlen). eexists. reflexivity.
Qed.

Definition long_text : string := text_of ["a,b"; "1,2"; "3,4,5"].

Definition blank_text : string := text_of ["   "].

Definition unterminated_text : string := text_of ["a,b"; String.append "1," (String.append dq "2")].

Lemma loader_errors_propagate_witness :
  chart_py (w0 []) = (Err (FileNotFoundError data_filepath), w0 []) /\
  chart_py (w0 [(data_filepath, long_text)]) = (Err (ParserError 2 3 3), w0 [(data_filepath, long_text)]) /\
  read_csv_text "" = Err EmptyDataError /\
  read_csv_text blank_text = Err EmptyDataError /\
  (exists ln' saw, read_csv_text long_text = Err (ParserError (Nat.max 2 2) ln' saw)) /\
  (exists e, read_csv_text unterminated_text = Err e /\ is_parser_error e = true) /\
  (exists df, read_csv_text ragged_text = Ok df).
Proof.
  destruct (loader_errors_propagate (w0 [])) as [H1 _].
  destruct (loader_errors_propagate (w0 [(data_filepath, long_text)]))
    as [_ [H2 [H3 [H4 [H5 [H6 H7]]]]]].
  split; [apply H1; reflexivity|].
  split; [apply (H2 long_text); reflexivity|].
  split; [apply H3; reflexivity|].
  split; [apply H4; reflexivity|].
  split; [apply (H5 long_text 1 ["a"; "b"] 2 ["1"; "2"] [(3, ["3"; "4"; "5"])] None 3 ["3"; "4"; "5"]);
          [reflexivity|left; reflexivity|simpl; lia]|].
  split; [apply (H6 unterminated_text [(1, ["a"; "b"])] 1); reflexivity|].
  apply (H7 ragged_text 1 ["probability"; "difference"] [(2, ["0.1"]); (3, ["0.2"; "3"])]).
  - reflexivity.
  - repeat constructor; simpl; lia.
Defined.

(** ** Outputs of a run *)

Lemma out_load_stage w :
  match load_stage w with
  | (Err _, w') => w_out w' = w_out w
  | (Ok _, w') => exists df, w_out w' = w_out w ++ [OPrint df]
  end.
Proof.
  unfold load_stage, read_csv, bind.
  destruct (lookup_file data_filepath (w_files w)); [|reflexivity].
  destruct (read_csv_text s); [|reflexivity]. simpl. eauto.
Qed.

Lemma out_label_and_show w :
  exists f, w_out (snd (label_and_show w)) = w_out w ++ [OShow f].
Proof.
  unfold label_and_show, set_title, set_xlabel, set_ylabel, gca, set_fig, show, bind.
  destruct (w_fig w); simpl; eexists; reflexivity.
Qed.

Lemma out_plot_stage l w :
  w_out (snd (plot_stage l w)) = w_out w \/
  exists f, w_out (snd (plot_stage l w)) = w_out w ++ [OShow f].
Proof.
  unfold plot_stage, bind.
  pose proof (out_plot_line l w) as H. unfold same_out in H.
  destruct (plot_line l w) as [[u|e] w1]; simpl in *; [|left; exact H].
  right. destruct (out_label_and_show w1) as [f E]. exists f. rewrite E, H. reflexivity.
Qed.

(** C8: a run writes no file: the files are those before the run, and
    the run's only outputs are the print of the loaded table and then
    the presented figure (fewer when an exception stops it). *)
Theorem chart_py_writes_no_file :
  forall w,
  w_files (snd (chart_py w)) = w_files w /\
  (w_out (snd (chart_py w)) = w_out w \/
   (exists df, w_out (snd (chart_py w)) = w_out w ++ [OPrint df]) \/
   (exists df f, w_out (snd (chart_py w)) = w_out w ++ [OPrint df; OShow f])).
Proof.
  intros w. split; [apply files_chart_py|].
  pose proof (out_load_stage w) as H.
  unfold chart_py, bind.
  destruct (load_stage w) as [[l|e] w1]; simpl; [|left; exact H].
  destruct H as [df Hdf].
  destruct (out_plot_stage l w1) as [E|[f E]]; rewrite E, Hdf.
  - right. left. exists df. reflexivity.
  - right. right. exists df, f. rewrite <- app_assoc. reflexivity.
Qed.

(** C9: the DataFrame the loader produced is, after the whole run, the
    object it was: the filter allocated a new one for the plot. *)
Theorem loaded_table_unchanged :
  forall w text df,
  lookup_file data_filepath (w_files w) = Some text ->
  read_csv_text text = Ok df ->
  heap_get (w_heap (snd (chart_py w))) (length (w_heap w)) = df.
Proof.
  intros w text df Hf Hr.
  unfold chart_py, bind.
  assert (Hl : exists w1, load_stage w = (Ok (length (w_heap w)), w1) /\
                          w_heap w1 = w_heap w ++ [df]).
  { unfold load_stage, read_csv, bind, ret. rewrite Hf, Hr. simpl.
    eexists. split; reflexivity. }
  destruct Hl as [w1 [-> Hh]].
  destruct (heap_plot_stage (length (w_heap w)) w1) as [ext Hext].
  rewrite Hext, Hh, heap_get_app_l by (rewrite length_app; simpl; lia).
  apply heap_get_new.
Qed.

Lemma loaded_table_unchanged_witness :
  heap_get (w_heap (snd (chart_py (w0 [(data_filepath, table_text)])))) 0
  = load_text table_text.
Proof.
  apply (loaded_table_unchanged (w0 [(data_filepath, table_text)]) table_text);
    vm_compute; reflexivity.
Defined.

(** ** Columns the plot needs *)

Lemma get_column_mask (df : DataFrame) (m : list bool) (k : string) :
  get_column (mask_rows df m) k
  = match get_column df k with Ok vs => Ok (select m vs) | Err e => Err e end.
Proof.
  unfold get_column, mask_rows. simpl.
  destruct (index_of k (df_columns df)); [rewrite map_select|]; reflexivity.
Qed.

Lemma existsb_select_false {A} (p : A -> bool) (m : list bool) (xs : list A) :
  existsb p xs = false -> existsb p (select m xs) = false.
Proof.
  revert xs; induction m as [|b m IH]; intros [|x xs] H; simpl in *; try reflexivity.
  apply orb_false_iff in H as [Hx Hxs].
  destruct b; simpl; [rewrite Hx|]; apply IH; assumption.
Qed.


Lemma not_str_in (vs : list cell) (v : cell) :
  existsb is_str vs = false -> In v vs -> is_str v = false.
Proof.
  intros H Hin. destruct (is_str v) eqn:E; [|reflexivity].
  assert (existsb is_str vs = true) by (apply existsb_exists; eauto). congruence.
Qed.

Lemma variable_type_numeric (vs : list cell) :
  existsb is_str vs = false -> variable_type vs = VNumeric.
Proof.
  unfold variable_type. intros H.
  replace (forallb (fun c => match c with CStr _ => false | _ => true end) vs) with true;
    [reflexivity|].
  symmetry. apply forallb_forall. intros c Hc.
  pose proof (not_str_in _ _ H Hc). destruct c; simpl in *; congruence.
Qed.







(** * Further properties of the script *)

(** ** Shape of a loaded table *)

Lemma length_dedup_aux (fuel : nat) (names : list string) :
  forall counts, length (dedup_aux fuel counts names) = length names.
Proof.
  induction names as [|col names IH]; intros counts; simpl; [reflexivity|].
  destruct (mangle fuel counts col (count_get col counts)) as [[c' col'] cur'].
  simpl. rewrite IH. reflexivity.
Qed.

Lemma length_unnamed (header : list string) : length (unnamed header) = length header.
Proof.
  unfold unnamed. rewrite length_map, length_combine, length_seq. apply Nat.min_id.
Qed.

Lemma length_set_nth {A} (i : nat) (x : A) (l : list A) :
  length (set_nth i x l) = length l.
Proof.
  revert i; induction l as [|y l IH]; intros [|i]; simpl; try rewrite IH; reflexivity.
Qed.

Lemma length_header_mangle (fuel : nat) (order : list nat) :
  forall this_header counts,
  length (header_mangle fuel order this_header counts) = length this_header.
Proof.
  induction order as [|i order IH]; intros this_header counts; simpl; [reflexivity|].
  destruct (header_mangle_loop _ _ _ _ _ _) as [[c col] cur].
  rewrite IH, length_set_nth. reflexivity.
Qed.

Lemma length_header_names (header : list string) :
  length (header_names header) = length header.
Proof. unfold header_names. rewrite length_header_mangle. apply length_unnamed. Qed.

Lemma convert_block_rows (n : nat) (raw : list (list string)) :
  Forall (fun r => length r = n) raw ->
  Forall (fun r => length r = n) (convert_block n raw).
Proof.
  intros H. unfold convert_block. apply Forall_map.
  eapply Forall_impl; [|exact H]. intros r Hr. simpl.
  rewrite length_map, length_combine, length_map, length_seq, Hr. apply Nat.min_id.
Qed.

Lemma first_long_None_Forall (e : nat) (recs : list (nat * list string)) :
  first_long e recs = None -> Forall (fun '(_, fs) => length fs <= e) recs.
Proof.
  induction recs as [|[ln fs] recs IH]; intros H; simpl in *; [constructor|].
  destruct (e <? length fs) eqn:E; [discriminate|].
  apply Nat.ltb_ge in E. constructor; [exact E|]. apply IH, H.
Qed.

(** X1: a table the loader returns is rectangular: every row has one
    cell per column, the columns being one per header field, and there is
    one index label per row. *)
Theorem read_csv_rectangular :
  forall text df, read_csv_text text = Ok df ->
  (exists n header data, tokenize text = ((n, header) :: data, None) /\
     length (df_columns df) = length header) /\
  Forall (fun r => length r = length (df_columns df)) (df_rows df) /\
  length (df_index df) = length (df_rows df).
Proof.
  intros text df H. unfold read_csv_text in H.
  destruct (tokenize text) as [[|[n header] data] eof] eqn:Ht; [destruct eof; discriminate|].
  set (e := match data with
            | [] => length header
            | (_, fs) :: _ => Nat.max (length header) (length fs)
            end) in H.
  destruct (first_long e (tl data)) as [[ln saw]|] eqn:Hfl; [discriminate|].
  destruct eof as [row|]; [discriminate|].
  injection H as <-. simpl. unfold dedup_names.
  rewrite length_dedup_aux, length_header_names.
  assert (Hall : Forall (fun '(_, fs) => length fs <= e) data).
  { apply first_long_None_Forall in Hfl.
    destruct data as [|[m fs1] rest]; [constructor|].
    constructor; [unfold e; lia|exact Hfl]. }
  assert (Heh : length header <= e) by (unfold e; destruct data as [|[m fs1] rest]; lia).
  split; [exists n, header, data; split; reflexivity|].
  split.
  - apply convert_block_rows. rewrite map_map. apply Forall_map.
    eapply Forall_impl; [|exact Hall]. intros [ln fs] Hfs. simpl.
    rewrite length_skipn, length_pad by exact Hfs. lia.
  - rewrite convert_block_length, length_map, length_map.
    destruct (e - length header =? 0).
    + unfold range_index. rewrite length_map, length_seq, length_map. reflexivity.
    + rewrite convert_block_length, length_map, length_map. reflexivity.
Qed.

Lemma read_csv_rectangular_witness :
  (exists n header data, tokenize long_first_text = ((n, header) :: data, None) /\
     length (df_columns (load_text long_first_text)) = length header) /\
  Forall (fun r => length r = length (df_columns (load_text long_first_text)))
    (df_rows (load_text long_first_text)) /\
  length (df_index (load_text long_first_text)) = length (df_rows (load_text long_first_text)).
Proof. apply read_csv_rectangular. vm_compute. reflexivity. Defined.

(** ** Short lines *)

Lemma nth_error_combine {A B} (l1 : list A) (l2 : list B) (j : nat) :
  nth_error (combine l1 l2) j
  = match nth_error l1 j, nth_error l2 j with
    | Some a, Some b => Some (a, b)
    | _, _ => None
    end.
Proof.
  revert l2 j; induction l1 as [|a l1 IH]; intros l2 j;
    destruct l2 as [|b l2]; destruct j as [|j]; simpl; try reflexivity.
  - destruct (nth_error l1 j); reflexivity.
  - apply IH.
Qed.

Lemma nth_error_pad (h : nat) (fs : list string) (j : nat) :
  length fs <= j < h -> nth_error (pad h fs) j = Some "".
Proof.
  intros Hj. unfold pad. rewrite nth_error_app2 by lia.
  apply nth_error_repeat. lia.
Qed.

(** X2: a data line with fewer fields than the header is read with NaN
    in the columns it lacks, whatever the column's type. *)
Theorem short_line_reads_NaN :
  forall text n header data i ln fs j,
  tokenize text = ((n, header) :: data, None) ->
  Forall (fun '(_, fs) => length fs <= length header) data ->
  nth_error data i = Some (ln, fs) ->
  length fs <= j < length header ->
  exists df row, read_csv_text text = Ok df /\
    nth_error (df_rows df) i = Some row /\ nth_error row j = Some CNaN.
Proof.
  intros text n header data i ln fs j Ht Hlen Hi Hj.
  rewrite (read_csv_text_fits text n header data Ht Hlen).
  eexists. eexists. split; [reflexivity|]. simpl.
  unfold convert_block. rewrite nth_error_map, nth_error_map, Hi. simpl.
  split; [reflexivity|].
  rewrite nth_error_map, nth_error_combine, nth_error_map, nth_error_seq by lia.
  destruct (Nat.ltb_spec j (length header)) as [_|]; [|lia].
  rewrite nth_error_pad by exact Hj. reflexivity.
Qed.

Lemma short_line_reads_NaN_witness :
  exists df row, read_csv_text ragged_text = Ok df /\
    nth_error (df_rows df) 0 = Some row /\ nth_error row 1 = Some CNaN.
Proof.
  apply (short_line_reads_NaN ragged_text 1 ["probability"; "difference"]
           [(2, ["0.1"]); (3, ["0.2"; "3"])] 0 2 ["0.1"] 1).
  - reflexivity.
  - repeat constructor; simpl; lia.
  - reflexivity.
  - simpl. lia.
Defined.

(** ** The row filter *)

Lemma combine_select {A B} (m : list bool) (a : list A) (b : list B) :
  combine (select m a) (select m b) = select m (combine a b).
Proof.
  revert a b; induction m as [|c m IH]; intros a b; [reflexivity|].
  destruct a as [|x a]; [reflexivity|].
  destruct b as [|y b]; [simpl; destruct c; [reflexivity|apply combine_nil]|].
  simpl. destruct c; simpl; rewrite IH; reflexivity.
Qed.

Lemma select_map_combine {A B} (q : B -> bool) (a : list A) (b : list B) :
  select (map q b) (combine a b) = filter (fun p => q (snd p)) (combine a b).
Proof.
  revert b; induction a as [|x a IH]; intros [|y b]; simpl; try reflexivity.
  destruct (q y); rewrite IH; reflexivity.
Qed.

(** X3: the filter keeps each kept row with its original index label (the
    labels are not renumbered): the (label, row) pairs of the filtered
    table are those of the table whose probability is a number [>= 0]. *)
Theorem filter_keeps_index_labels :
  forall df sub, filter_frame df = Ok sub ->
  exists j, index_of "probability" (df_columns df) = Some j /\
    combine (df_index sub) (df_rows sub)
    = filter (fun p => nonneg_cell (nth j (snd p) CNaN)) (combine (df_index df) (df_rows df)).
Proof.
  intros [idx cols rows] sub H. unfold filter_frame, get_column in H; simpl in H.
  destruct (index_of "probability" cols) as [j|] eqn:Ej; [|discriminate].
  rewrite series_ge_zero in H.
  destruct (existsb is_str _); [discriminate|]. injection H as <-.
  exists j. split; [exact Ej|]. simpl.
  rewrite combine_select, map_map.
  apply (select_map_combine (fun r => nonneg_cell (nth j r CNaN))).
Qed.

Lemma filter_keeps_index_labels_witness :
  exists j, index_of "probability" (df_columns table_mixed) = Some j /\
    combine (df_index (mask_rows table_mixed [true; false; true; false]))
            (df_rows (mask_rows table_mixed [true; false; true; false]))
    = filter (fun p => nonneg_cell (nth j (snd p) CNaN))
        (combine (df_index table_mixed) (df_rows table_mixed)).
Proof. apply filter_keeps_index_labels. vm_compute. reflexivity. Defined.

Lemma select_all_true {A} (m : list bool) (xs : list A) :
  Forall (fun b => b = true) m -> length xs <= length m -> select m xs = xs.
Proof.
  revert xs; induction m as [|b m IH]; intros [|x xs] Hm Hl; simpl in *;
    try reflexivity; try lia.
  inversion Hm; subst. rewrite IH by (assumption || lia). reflexivity.
Qed.

Lemma length_select_le {A B} (m : list bool) (xs : list A) (ys : list B) :
  length ys = length m -> length (select m xs) <= length (select m ys).
Proof.
  revert xs ys; induction m as [|b m IH]; intros xs ys Hl; simpl; [lia|].
  destruct ys as [|y ys]; [discriminate|]. destruct xs as [|x xs]; [simpl; lia|].
  simpl in Hl. destruct b; simpl; specialize (IH xs ys ltac:(lia)); lia.
Qed.

(** X4: filtering twice is filtering once: the filtered table passes the
    filter unchanged. *)
Theorem filter_frame_idempotent :
  forall df sub, filter_frame df = Ok sub -> filter_frame sub = Ok sub.
Proof.
  intros [idx cols rows] sub H. unfold filter_frame in *.
  unfold get_column in H; simpl in H.
  destruct (index_of "probability" cols) as [j|] eqn:Ej; [|discriminate].
  set (vs := map (fun r => nth j r CNaN) rows) in H.
  rewrite series_ge_zero in H.
  destruct (existsb is_str vs) eqn:Es; [discriminate|]. injection H as <-.
  rewrite get_column_mask. unfold get_column at 1. simpl. rewrite Ej. fold vs.
  rewrite series_ge_zero, existsb_select_false by exact Es.
  assert (Hall : Forall (fun b => b = true) (map nonneg_cell (select (map nonneg_cell vs) vs))).
  { rewrite select_map_filter. apply Forall_map, Forall_forall.
    intros c Hc. apply filter_In in Hc. apply Hc. }
  assert (Hlen : length vs = length (map nonneg_cell vs)) by (rewrite length_map; reflexivity).
  assert (Hle : forall A (xs : list A),
             length (select (map nonneg_cell vs) xs)
             <= length (map nonneg_cell (select (map nonneg_cell vs) vs))).
  { intros A xs. rewrite length_map. apply length_select_le. exact Hlen. }
  unfold mask_rows; simpl.
  rewrite (select_all_true _ (select (map nonneg_cell vs) idx) Hall (Hle _ idx)).
  rewrite (select_all_true _ (select (map nonneg_cell vs) rows) Hall (Hle _ rows)).
  reflexivity.
Qed.

Lemma filter_frame_idempotent_witness :
  filter_frame (mask_rows table_mixed [true; false; true; false])
  = Ok (mask_rows table_mixed [true; false; true; false]).
Proof. apply (filter_frame_idempotent table_mixed). vm_compute. reflexivity. Defined.

(** ** The bars' categories *)

Lemma filter_frame_ok_inv (df sub : DataFrame) :
  filter_frame df = Ok sub ->
  exists vs, get_column df "probability" = Ok vs /\ existsb is_str vs = false /\
             sub = mask_rows df (map nonneg_cell vs).
Proof.
  unfold filter_frame. destruct (get_column df "probability") as [vs|]; [|discriminate].
  rewrite series_ge_zero. destruct (existsb is_str vs) eqn:E; [discriminate|].
  intros H. injection H as <-. eauto.
Qed.

Lemma map_result_In {A B} (f : A -> result B) (xs : list A) (ys : list B) y :
  map_result f xs = Ok ys -> In y ys -> exists x, In x xs /\ f x = Ok y.
Proof.
  revert ys; induction xs as [|x xs IH]; intros ys H Hy; simpl in H.
  - injection H as <-. contradiction.
  - destruct (f x) as [y'|] eqn:Ef; [|discriminate].
    destruct (map_result f xs) as [ys'|]; [|discriminate].
    injection H as <-. simpl in Hy. destruct Hy as [Hy|Hy].
    + subst. exists x. split; [left|]; auto.
    + destruct (IH ys' eq_refl Hy) as [x' [Hx' Hf]]. exists x'. split; [right|]; auto.
Qed.

Lemma map_result_fst {A B} (f : A -> result (A * B)) (xs : list A) ys :
  (forall x y, f x = Ok y -> fst y = x) ->
  map_result f xs = Ok ys -> map fst ys = xs.
Proof.
  intros Hf. revert ys; induction xs as [|x xs IH]; intros ys H; simpl in H.
  - injection H as <-. reflexivity.
  - destruct (f x) as [y|] eqn:Ex; [|discriminate].
    destruct (map_result f xs) as [ys'|]; [|discriminate].
    injection H as <-. simpl. rewrite (Hf _ _ Ex), (IH ys' eq_refl). reflexivity.
Qed.

Definition cell_le (a b : cell) : Prop := cell_leb a b = true.

Lemma cell_leb_total (a b : cell) : cell_leb a b = false -> cell_leb b a = true.
Proof.
  unfold cell_leb. destruct (cell_to_Q a) as [p|], (cell_to_Q b) as [q|]; try discriminate.
  intros H. apply Qle_bool_iff. apply Qlt_le_weak, Qnot_le_lt.
  intros Hle. apply Qle_bool_iff in Hle. congruence.
Qed.

Lemma insert_sorted_HdRel (d c : cell) (cs : list cell) :
  HdRel cell_le d cs -> cell_le d c -> HdRel cell_le d (insert_sorted c cs).
Proof.
  intros Hd Hdc. destruct cs as [|e cs]; simpl; [constructor; exact Hdc|].
  destruct (cell_leb c e); constructor; [exact Hdc|]. inversion Hd; assumption.
Qed.

Lemma insert_sorted_Sorted (c : cell) (cs : list cell) :
  Sorted cell_le cs -> Sorted cell_le (insert_sorted c cs).
Proof.
  induction cs as [|d cs IH]; intros Hs; simpl; [repeat constructor|].
  destruct (cell_leb c d) eqn:E.
  - constructor; [exact Hs|]. constructor. exact E.
  - inversion Hs as [|? ? Hs' Hd]; subst. constructor; [apply IH, Hs'|].
    apply insert_sorted_HdRel; [exact Hd|]. apply cell_leb_total, E.
Qed.

Lemma sort_cells_Sorted (cs : list cell) : Sorted cell_le (sort_cells cs).
Proof.
  induction cs as [|c cs IH]; simpl; [constructor|]. apply insert_sorted_Sorted, IH.
Qed.

Lemma In_insert_sorted (x c : cell) (cs : list cell) :
  In x (insert_sorted c cs) -> x = c \/ In x cs.
Proof.
  induction cs as [|d cs IH]; simpl; [intuition|].
  destruct (cell_leb c d); simpl.
  - intros [<-|H]; [left; reflexivity|right; exact H].
  - intros [->|H]; [right; left; reflexivity|].
    apply IH in H as [->|H]; [left; reflexivity|right; right; exact H].
Qed.

Lemma In_sort_cells (x : cell) (cs : list cell) : In x (sort_cells cs) -> In x cs.
Proof.
  induction cs as [|c cs IH]; simpl; [tauto|].
  intros H. apply In_insert_sorted in H. destruct H as [->|H]; [left; reflexivity|].
  right. apply IH, H.
Qed.

Lemma In_unique_aux (x : cell) (seen cs : list cell) :
  In x (unique_aux seen cs) -> In x seen \/ In x cs.
Proof.
  revert seen; induction cs as [|c cs IH]; intros seen H; simpl in *.
  - left. apply in_rev, H.
  - destruct (existsb (cell_eqb c) seen).
    + apply IH in H. tauto.
    + apply IH in H as [[<-|H]|H]; [right; left; reflexivity|tauto|tauto].
Qed.

Lemma In_categorical_order (x : cell) (vs : list cell) :
  In x (categorical_order vs) -> In x vs.
Proof.
  unfold categorical_order, unique. intros H.
  assert (Hf : In x (filter (fun c => negb (is_nan c)) (unique_aux [] vs))).
  { destruct (variable_type vs); [apply In_sort_cells, H|exact H]. }
  apply filter_In in Hf as [Hf _]. apply In_unique_aux in Hf as [[]|Hf]. exact Hf.
Qed.

(** X5: in a chart drawn with vertical bars, the bars' categories are
    probabilities [>= 0], drawn in ascending order. *)
Theorem bar_categories_nonneg_sorted :
  forall y df bars,
  render "probability" y df = Ok (AxisX, bars) ->
  Forall (fun b => nonneg_cell (fst b) = true) bars /\ Sorted cell_le (map fst bars).
Proof.
  intros y df bars H. unfold render in H.
  destruct (filter_frame df) as [sub|] eqn:Ef; [|discriminate].
  destruct (filter_frame_ok_inv _ _ Ef) as [vs [Hvs [Hstr ->]]].
  unfold barplot_bars, plot_variable in H.
  rewrite get_column_mask, Hvs in H.
  destruct (get_column (mask_rows df (map nonneg_cell vs)) y) as [ys|]; [|discriminate].
  set (xs := select (map nonneg_cell vs) vs) in H.
  assert (Hxs : existsb is_str xs = false) by (apply existsb_select_false, Hstr).
  rewrite (variable_type_numeric xs Hxs) in H.
  destruct (variable_type ys); simpl in H;
    [|destruct (group_means ys xs); discriminate].
  unfold group_means in H.
  destruct (map_result _ (categorical_order xs)) as [bs|] eqn:Em; [|discriminate].
  injection H as <-.
  assert (Hfst : map fst bs = categorical_order xs).
  { eapply map_result_fst; [|exact Em].
    intros l b Hl. cbv beta in Hl. destruct (agg_mean (group_cells xs ys l)); [|discriminate].
    injection Hl as <-. reflexivity. }
  split.
  - apply Forall_forall. intros b Hb.
    assert (Hin : In (fst b) xs).
    { apply In_categorical_order. rewrite <- Hfst. apply in_map, Hb. }
    unfold xs in Hin. rewrite select_map_filter in Hin. apply filter_In in Hin. apply Hin.
  - rewrite Hfst. unfold categorical_order. rewrite (variable_type_numeric xs Hxs).
    apply sort_cells_Sorted.
Qed.

Lemma bar_categories_nonneg_sorted_witness :
  exists bars, render "probability" "difference" table_mixed = Ok (AxisX, bars) /\
  Forall (fun b => nonneg_cell (fst b) = true) bars /\ Sorted cell_le (map fst bars).
Proof.
  eexists. split; [vm_compute; reflexivity|].
  apply (bar_categories_nonneg_sorted "difference" table_mixed). vm_compute. reflexivity.
Defined.

(** ** How the statements of the run compose *)

Lemma render_ok_inv (df : DataFrame) bars :
  render "probability" "difference" df = Ok bars ->
  exists vs, get_column df "probability" = Ok vs /\ existsb is_str vs = false /\
    barplot_bars "probability" "difference" (mask_rows df (map nonneg_cell vs)) = Ok bars.
Proof.
  unfold render. destruct (filter_frame df) as [sub|] eqn:Ef; [|discriminate].
  destruct (filter_frame_ok_inv _ _ Ef) as [vs [Hvs [Hstr ->]]]. eauto.
Qed.

Definition chart_figure (bars : axis * list (cell * option Q)) : Figure :=
  mkFig (12, 8)%Q [bars] chart_title "Probability" "Difference in number of equations".

(** The world after a run whose plot line succeeds. *)
Lemma run_after_render (w : World) (bytes : string) (df : DataFrame) bars :
  lookup_file data_filepath (w_files w) = Some bytes ->
  read_csv_text bytes = Ok df ->
  render "probability" "difference" df = Ok bars ->
  exists sub, filter_frame df = Ok sub /\
  chart_py w = (Ok tt, mkWorld (w_files w) (w_heap w ++ [df; sub])
                  (("savefig.dpi", 300%Z) :: ("figure.dpi", 300%Z) :: w_rc w) None
                  (w_out w ++ [OPrint df; OShow (chart_figure bars)])).
Proof.
  intros Hf Hr Hb.
  destruct (render_ok_inv _ _ Hb) as [vs [Hvs [Hstr Hbars]]].
  exists (mask_rows df (map nonneg_cell vs)). split.
  - unfold filter_frame. rewrite Hvs, series_ge_zero, Hstr. reflexivity.
  - unfold chart_py, load_stage, read_csv, bind, ret. rewrite Hf, Hr.
    unfold new_object, print_df, plt_figure, set_fig, rc_set. simpl.
    rewrite heap_get_new.
    unfold plot_stage, plot_line, getitem_col, getitem_mask, barplot, bind, deref, lift. simpl.
    rewrite heap_get_new, Hvs, series_ge_zero, Hstr. simpl.
    rewrite heap_get_new, Hbars.
    unfold gca, set_fig, label_and_show, set_title, set_xlabel, set_ylabel, show, bind. simpl.
    rewrite <- !app_assoc. reflexivity.
Qed.










(** ** A file with a header and no data *)

Lemma index_of_In (k : string) (cols : list string) :
  In k cols -> exists j, index_of k cols = Some j.
Proof.
  induction cols as [|c cols IH]; simpl; [tauto|].
  intros H. destruct (String.eqb_spec k c) as [->|Hne]; [eauto|].
  destruct H as [->|H]; [congruence|]. destruct (IH H) as [j ->]. eauto.
Qed.

(** X11: a file with the header line only (both columns named in it) is
    read as an empty table, and the run shows one figure without bars. *)
Theorem header_only_empty_chart :
  forall w text n header,
  lookup_file data_filepath (w_files w) = Some text ->
  tokenize text = ([(n, header)], None) ->
  In "probability" (dedup_names (header_names header)) ->
  In "difference" (dedup_names (header_names header)) ->
  let df := mkDF [] (dedup_names (header_names header)) [] in
  chart_py w = (Ok tt, mkWorld (w_files w) (w_heap w ++ [df; df])
                  (("savefig.dpi", 300%Z) :: ("figure.dpi", 300%Z) :: w_rc w) None
                  (w_out w ++ [OPrint df; OShow (chart_figure (AxisX, []))])).
Proof.
  intros w text n header Hf Ht Hp Hd df.
  assert (Hr : read_csv_text text = Ok df)
    by (rewrite (read_csv_text_fits text n header [] Ht (Forall_nil _)); reflexivity).
  destruct (index_of_In _ _ Hp) as [jp Hjp]. destruct (index_of_In _ _ Hd) as [jd Hjd].
  assert (Hb : render "probability" "difference" df = Ok (AxisX, [])).
  { unfold render, filter_frame, barplot_bars, plot_variable, get_column. simpl.
    rewrite Hjp. simpl. rewrite Hjp, Hjd. reflexivity. }
  destruct (run_after_render w text df _ Hf Hr Hb) as [sub [Hsub ->]].
  unfold filter_frame, get_column in Hsub. simpl in Hsub. rewrite Hjp in Hsub.
  injection Hsub as <-. reflexivity.
Qed.

Definition header_only_text : string := text_of ["probability,difference"].

Lemma header_only_empty_chart_witness :
  chart_py (w0 [(data_filepath, header_only_text)])
  = (Ok tt, mkWorld [(data_filepath, header_only_text)]
              [mkDF [] ["probability"; "difference"] []; mkDF [] ["probability"; "difference"] []]
              [("savefig.dpi", 300%Z); ("figure.dpi", 300%Z)] None
              [OPrint (mkDF [] ["probability"; "difference"] []);
               OShow (chart_figure (AxisX, []))]).
Proof.
  apply (header_only_empty_chart (w0 [(data_filepath, header_only_text)]) header_only_text 1
           ["probability"; "difference"]); vm_compute; auto.
Defined.

(** ** Column names are distinct *)

Section Dedup.

(** The names whose count is positive are the names emitted so far. *)
Definition counts_of (counts : list (string * nat)) (emitted : list string) : Prop :=
  forall x, 0 < count_get x counts <-> In x emitted.

Lemma length_string_append (a b : string) :
  String.length (String.append a b) = String.length a + String.length b.
Proof. induction a as [|c a IH]; simpl; [reflexivity|]. rewrite IH. reflexivity. Qed.

Lemma filter_length_lt {A} (p p' : A -> bool) (l : list A) (y : A) :
  (forall x, p' x = true -> p x = true) -> In y l -> p y = true -> p' y = false ->
  length (filter p' l) < length (filter p l).
Proof.
  intros Himp Hy Hp Hp'. induction l as [|x l IH]; [destruct Hy|].
  assert (Hle : length (filter p' l) <= length (filter p l)).
  { clear IH Hy. induction l as [|z l IHl]; simpl; [lia|].
    destruct (p' z) eqn:E; [rewrite (Himp z E); simpl; lia|].
    destruct (p z); simpl; lia. }
  simpl. destruct Hy as [->|Hy].
  - rewrite Hp, Hp'. simpl. lia.
  - specialize (IH Hy).
    destruct (p' x) eqn:E; [rewrite (Himp x E); simpl; lia|].
    destruct (p x); simpl; lia.
Qed.

Definition longer_names (col : string) (emitted : list string) : nat :=
  length (filter (fun x => String.length col <=? String.length x) emitted).

Lemma mangle_ends (fuel : nat) :
  forall counts emitted col,
  counts_of counts emitted ->
  longer_names col emitted < fuel ->
  let '(counts', col', cur') := mangle fuel counts col (count_get col counts) in
  cur' = 0 /\ counts_of counts' emitted /\ ~ In col' emitted /\ count_get col' counts' = 0.
Proof.
  induction fuel as [|fuel IH]; intros counts emitted col Hc Hf; [lia|].
  simpl. destruct (Nat.eqb_spec (count_get col counts) 0) as [H0|Hpos].
  - rewrite H0. split; [reflexivity|]. split; [exact Hc|]. split; [|reflexivity].
    intros Hin. apply Hc in Hin. lia.
  - assert (Hin : In col emitted) by (apply Hc; lia).
    set (col1 := String.append col (String.append "." (string_of_nat (count_get col counts)))).
    set (counts1 := count_set col (count_get col counts + 1) counts).
    assert (Hc1 : counts_of counts1 emitted).
    { intros x. unfold counts1, count_set. simpl.
      destruct (String.eqb_spec x col) as [->|]; [split; [intros _; exact Hin|lia]|apply Hc]. }
    assert (Hlen : String.length col < String.length col1).
    { unfold col1. rewrite !length_string_append. simpl. lia. }
    apply (IH counts1 emitted col1 Hc1).
    assert (longer_names col1 emitted < longer_names col emitted); [|lia].
    apply (filter_length_lt _ _ emitted col).
    + intros x Hx. apply Nat.leb_le in Hx. apply Nat.leb_le. lia.
    + exact Hin.
    + apply Nat.leb_le. lia.
    + apply Nat.leb_gt. exact Hlen.
Qed.

Lemma longer_names_le (col : string) (emitted : list string) :
  longer_names col emitted <= length emitted.
Proof. unfold longer_names. apply filter_length_le. Qed.

Lemma dedup_aux_distinct (fuel : nat) (names : list string) :
  forall counts emitted,
  counts_of counts emitted -> NoDup emitted ->
  length emitted + length names < fuel ->
  NoDup (dedup_aux fuel counts names) /\
  (forall x, In x (dedup_aux fuel counts names) -> ~ In x emitted).
Proof.
  induction names as [|col rest IH]; intros counts emitted Hc Hnd Hf; simpl.
  - split; [constructor|tauto].
  - pose proof (mangle_ends fuel counts emitted col Hc) as Hm.
    destruct (mangle fuel counts col (count_get col counts)) as [[counts1 col1] cur1].
    destruct Hm as [-> [Hc1 [Hnot _]]];
      [pose proof (longer_names_le col emitted); simpl in Hf; lia|].
    assert (Hc2 : counts_of (count_set col1 1 counts1) (col1 :: emitted)).
    { intros x. unfold count_set. simpl.
      destruct (String.eqb_spec x col1) as [->|Hne].
      - split; [intros _; left; reflexivity|lia].
      - rewrite (Hc1 x). split; [intros H; right; exact H|].
        intros [H|H]; [congruence|exact H]. }
    destruct (IH (count_set col1 1 counts1) (col1 :: emitted) Hc2)
      as [Hnd' Hdis]; [constructor; assumption|simpl in *; lia|].
    split.
    + constructor; [|exact Hnd']. intros Hin. apply (Hdis col1 Hin). left. reflexivity.
    + intros x [<-|Hx]; [exact Hnot|]. intros Hx'. apply (Hdis x Hx). right. exact Hx'.
Qed.

End Dedup.

Lemma dedup_names_distinct (names : list string) : NoDup (dedup_names names).
Proof.
  unfold dedup_names. apply (dedup_aux_distinct _ names [] []).
  - intros x. simpl. split; [lia|tauto].
  - constructor.
  - simpl. lia.
Qed.

(** X12: the columns of every table the loader returns have distinct
    names, so that [df[k]] names one column whatever the header repeats. *)
Theorem read_csv_columns_distinct :
  forall text df, read_csv_text text = Ok df -> NoDup (df_columns df).
Proof.
  intros text df H. unfold read_csv_text in H.
  destruct (tokenize text) as [[|[n header] data] eof]; [destruct eof; discriminate|].
  destruct (first_long _ (tl data)) as [[ln saw]|]; [discriminate|].
  destruct eof; [discriminate|].
  injection H as <-. apply dedup_names_distinct.
Qed.

Definition repeated_header_text : string := text_of ["a,a,a.1,a"; "1,2,3,4"].

Lemma read_csv_columns_distinct_witness :
  read_csv_text repeated_header_text
  = Ok (mkDF [[CNum 0]] ["a"; "a.2"; "a.1"; "a.3"]
             [[CNum 1; CNum 2; CNum 3; CNum 4]]) /\
  NoDup ["a"; "a.2"; "a.1"; "a.3"].
Proof.
  split; [vm_compute; reflexivity|].
  apply (read_csv_columns_distinct repeated_header_text
           (mkDF [[CNum 0]] ["a"; "a.2"; "a.1"; "a.3"] [[CNum 1; CNum 2; CNum 3; CNum 4]])).
  vm_compute. reflexivity.
Defined.
